(** * Boxer: a step/interval ticker and its desktop handlers

    A shallow embedding of the [boxer] package (handlers, command
    construction, colour parsing) and of its ticker, together with the
    properties of the scheduling engine.

    Conventions.
    - Go's [int], [int64] and [time.Duration] values are integers of type [Z];
      a [time.Time] is the number of nanoseconds since the Unix epoch.
    - A Go [string] or [[]byte] is a [string] (a sequence of bytes).
    - A Go function with side effects takes the state of the world and
      returns it: [f : ... -> World -> result * World].
    - A Go [error] is [option error], [None] being [nil]. *)

From Stdlib Require Import ZArith Ascii String Sorted Lia.
From stdpp Require Import gmap strings list.

Set Warnings "-register-all".
Local Open Scope Z_scope.

(** ** Characters and strings *)

(** The double quote, which the scripts of the package contain. *)
Definition dq : string := String (ascii_of_nat 34) EmptyString.

(** The line feed. *)
Definition nl : string := String (ascii_of_nat 10) EmptyString.

Definition byte_of (c : ascii) : Z := Z.of_nat (nat_of_ascii c).

Definition in_range (lo hi c : ascii) : bool :=
  (byte_of lo <=? byte_of c) && (byte_of c <=? byte_of hi).

Fixpoint drop_str (n : nat) (s : string) : string :=
  match n, s with
  | O, _ => s
  | S n', String _ s' => drop_str n' s'
  | S _, EmptyString => EmptyString
  end.

Fixpoint take_str (n : nat) (s : string) : string :=
  match n, s with
  | O, _ => EmptyString
  | S n', String c s' => String c (take_str n' s')
  | S _, EmptyString => EmptyString
  end.

Fixpoint rev_str (s acc : string) : string :=
  match s with
  | EmptyString => acc
  | String c s' => rev_str s' (String c acc)
  end.

(** ** Values and errors

    [fmt.Errorf format args] is kept as the format and its arguments. *)

Inductive Value :=
| VInt (z : Z)
| VStr (s : string)
| VBool (b : bool).

Inductive error := Errorf (format : string) (args : list Arg)
with Arg := Val (v : Value) | Err (e : error).

(** ** [strings.TrimSpace] (ASCII white space) *)

Module strings.

Definition isSpace (c : ascii) : bool :=
  let b := byte_of c in
  (b =? 9) || (b =? 10) || (b =? 11) || (b =? 12) || (b =? 13) || (b =? 32).

Fixpoint trimLeft (s : string) : string :=
  match s with
  | String c s' => if isSpace c then trimLeft s' else s
  | EmptyString => EmptyString
  end.

Definition TrimSpace (s : string) : string :=
  rev_str (trimLeft (rev_str (trimLeft s) EmptyString)) EmptyString.

End strings.

(** ** [strconv.ParseUint] for an explicit base between 2 and 36 *)

Module strconv.

Definition lower (c : Z) : Z := Z.lor c 32.

(** The value of one digit byte, if it is a digit or a letter. *)
Definition digitVal (c : ascii) : option Z :=
  let b := byte_of c in
  if (48 <=? b) && (b <=? 57) then Some (b - 48)
  else if (97 <=? lower b) && (lower b <=? 122) then Some (lower b - 97 + 10)
  else None.

Definition maxUint64 : Z := 2 ^ 64 - 1.

Inductive NumError := ErrSyntax | ErrRange.

Fixpoint parseLoop (s : string) (base maxVal cutoff n : Z)
  : Z * option NumError :=
  match s with
  | EmptyString => (n, None)
  | String c s' =>
      match digitVal c with
      | None => (0, Some ErrSyntax)
      | Some d =>
          if base <=? d then (0, Some ErrSyntax)
          else if cutoff <=? n then (maxVal, Some ErrRange)
          else
            let n1 := n * base + d in
            if maxVal <? n1 then (maxVal, Some ErrRange)
            else parseLoop s' base maxVal cutoff n1
      end
  end.

Definition ParseUint (s : string) (base bitSize : Z) : Z * option NumError :=
  match s with
  | EmptyString => (0, Some ErrSyntax)
  | _ => parseLoop s base (2 ^ bitSize - 1) (maxUint64 / base + 1) 0
  end.

(** [Atoi] on an optional sign followed by decimal digits; the error is
    kept as in [ParseUint]. Out of range values are clamped to [int64]. *)
Fixpoint decLoop (s : string) (n : Z) : option Z :=
  match s with
  | EmptyString => Some n
  | String c s' =>
      let b := byte_of c in
      if (48 <=? b) && (b <=? 57) then decLoop s' (n * 10 + (b - 48)) else None
  end.

Definition maxInt64 : Z := 2 ^ 63 - 1.
Definition minInt64 : Z := - 2 ^ 63.

Definition Atoi (s : string) : Z * option NumError :=
  let '(neg, ds) :=
    match s with
    | String "-" s' => (true, s')
    | String "+" s' => (false, s')
    | _ => (false, s)
    end in
  match ds with
  | EmptyString => (0, Some ErrSyntax)
  | _ =>
      match decLoop ds 0 with
      | None => (0, Some ErrSyntax)
      | Some n =>
          let v := if neg then - n else n in
          if maxInt64 <? v then (maxInt64, Some ErrRange)
          else if v <? minInt64 then (minInt64, Some ErrRange)
          else (v, None)
      end
  end.

End strconv.

(** ** [fmt.Sprintf] for the verbs the package uses: [%d] (also with the
    [0] flag and a width), [%s], [%v] and [%%] *)

Module fmt.

Definition digitChar (d : Z) : ascii := ascii_of_nat (Z.to_nat (48 + d)).

(** The decimal digits of [u >= 0], written from the least significant. *)
Fixpoint digitsGo (fuel : nat) (u : Z) (acc : string) : string :=
  match fuel with
  | O => acc
  | S fuel' =>
      let acc' := String (digitChar (u mod 10)) acc in
      if u <? 10 then acc' else digitsGo fuel' (u / 10) acc'
  end.

Definition digits (u : Z) : string :=
  digitsGo (S (Z.to_nat (Z.log2 u))) u EmptyString.

Fixpoint repeatChar (c : ascii) (n : nat) : string :=
  match n with
  | O => EmptyString
  | S n' => String c (repeatChar c n')
  end.

Definition padLeft (width : nat) (s : string) : string :=
  repeatChar " " (width - String.length s) +:+ s.

(** [fmtInteger] in base 10: with the [0] flag the width becomes the
    precision, less one for a sign. *)
Definition fmtInteger (zero : bool) (width : nat) (z : Z) : string :=
  let negative := z <? 0 in
  let ds := digits (Z.abs z) in
  let prec := if zero then (if negative then width - 1 else width)%nat else O in
  let body := repeatChar "0" (prec - String.length ds) +:+ ds in
  padLeft width ((if negative then "-" else "") +:+ body).

Definition fmtBool (b : bool) : string := if b then "true" else "false".

Definition badVerb (verb : ascii) : string :=
  "%!" +:+ String verb "(BADVERB)".

Definition printVerb (verb : ascii) (zero : bool) (width : nat) (a : Value)
  : string :=
  match a with
  | VInt z =>
      if Ascii.eqb verb "d" || Ascii.eqb verb "v" then fmtInteger zero width z
      else badVerb verb
  | VStr s =>
      if Ascii.eqb verb "s" || Ascii.eqb verb "v" then padLeft width s
      else badVerb verb
  | VBool b =>
      if Ascii.eqb verb "v" then padLeft width (fmtBool b)
      else badVerb verb
  end.

Inductive State :=
| Text
| Directive (zero : bool) (width : option nat).

Definition isDigit (c : ascii) : bool := in_range "0" "9" c.

Fixpoint doPrintf (st : State) (format : string) (args : list Value) : string :=
  match format with
  | EmptyString =>
      match st with Text => EmptyString | Directive _ _ => "%!(NOVERB)" end
  | String c rest =>
      match st with
      | Text =>
          if Ascii.eqb c "%" then doPrintf (Directive false None) rest args
          else String c (doPrintf Text rest args)
      | Directive zero width =>
          if Ascii.eqb c "0" && negb zero && negb (bool_decide (is_Some width))
          then doPrintf (Directive true None) rest args
          else if isDigit c then
            let d := Z.to_nat (byte_of c - 48) in
            doPrintf (Directive zero (Some (default O width * 10 + d)%nat)) rest args
          else if Ascii.eqb c "%" then String "%" (doPrintf Text rest args)
          else
            match args with
            | [] => "%!" +:+ String c "(MISSING)" +:+ doPrintf Text rest args
            | a :: args' =>
                printVerb c zero (default O width) a +:+ doPrintf Text rest args'
            end
      end
  end.

Definition Sprintf (format : string) (args : list Value) : string :=
  doPrintf Text format args.

End fmt.

(** ** Reading a formatted integer back

    Not part of the package: the inverse of [%0Nd], by which a file name is
    shown to determine the integers written into it. *)

Module readback.

Fixpoint decAcc (s : string) (n : Z) : Z :=
  match s with
  | EmptyString => n
  | String c s' => decAcc s' (n * 10 + (byte_of c - 48))
  end.

Definition readInt (s : string) : Z :=
  match s with
  | String c s' => if Ascii.eqb c "-" then - decAcc s' 0 else decAcc s 0
  | EmptyString => 0
  end.

Fixpoint allChars (p : ascii -> bool) (s : string) : bool :=
  match s with
  | EmptyString => true
  | String c s' => p c && allChars p s'
  end.

Definition numeric (c : ascii) : bool := Ascii.eqb c "-" || fmt.isDigit c.

End readback.

(** ** [path/filepath] with [/] as the separator *)

Module filepath.

(** The elements between separators, in order. *)
Fixpoint splitGo (s : string) (cur : string) : list string :=
  match s with
  | EmptyString => [rev_str cur EmptyString]
  | String c s' =>
      if Ascii.eqb c "/" then rev_str cur EmptyString :: splitGo s' EmptyString
      else splitGo s' (String c cur)
  end.

Definition split (s : string) : list string := splitGo s EmptyString.

(** [Clean] by elements: the stack holds the elements kept so far, the
    last one first. *)
Fixpoint cleanGo (rooted : bool) (elems : list string) (stack : list string)
  : list string :=
  match elems with
  | [] => stack
  | e :: elems' =>
      if String.eqb e "" || String.eqb e "." then cleanGo rooted elems' stack
      else if String.eqb e ".." then
        match stack with
        | top :: stack' =>
            if String.eqb top ".." then cleanGo rooted elems' (e :: stack)
            else cleanGo rooted elems' stack'
        | [] =>
            if rooted then cleanGo rooted elems' stack
            else cleanGo rooted elems' [e]
        end
      else cleanGo rooted elems' (e :: stack)
  end.

Fixpoint joinSlash (elems : list string) : string :=
  match elems with
  | [] => EmptyString
  | [e] => e
  | e :: elems' => e +:+ "/" +:+ joinSlash elems'
  end.

Definition Clean (path : string) : string :=
  match path with
  | EmptyString => "."
  | String c _ =>
      let rooted := Ascii.eqb c "/" in
      let out := joinSlash (rev (cleanGo rooted (split path) [])) in
      if rooted then "/" +:+ out
      else match out with EmptyString => "." | _ => out end
  end.

(** [Join]: the elements from the first non-empty one on, joined by the
    separator and cleaned. *)
Fixpoint Join (elem : list string) : string :=
  match elem with
  | [] => EmptyString
  | e :: elem' =>
      if String.eqb e "" then Join elem' else Clean (joinSlash elem)
  end.

End filepath.

(** ** [regexp]: the operators the package's patterns use

    Leftmost-first (backtracking) matching with submatches, as Go's
    [regexp] reports it for these operators. *)

Module regexp.

Inductive Regexp :=
| BeginText                                  (* ^ *)
| EndText                                    (* $ *)
| Lit (c : ascii)
| Class (ranges : list (ascii * ascii))      (* [a-bc-d] *)
| Cat (r1 r2 : Regexp)
| Quest (r : Regexp)                         (* r? *)
| Plus (r : Regexp)                          (* r+ *)
| Repeat (n : nat) (r : Regexp)              (* r{n} *)
| Group (idx : nat) (r : Regexp).            (* (r), numbered from 1 *)

Definition inClass (ranges : list (ascii * ascii)) (c : ascii) : bool :=
  existsb (fun '(lo, hi) => in_range lo hi c) ranges.

(** The continuation receives the position reached, the rest of the input
    and the submatches so far. *)
Definition Cont := nat -> string -> list string -> option (list string).

Fixpoint run (r : Regexp) (pos : nat) (s : string) (caps : list string)
  (k : Cont) {struct r} : option (list string) :=
  match r with
  | BeginText => if Nat.eqb pos 0 then k pos s caps else None
  | EndText => match s with EmptyString => k pos s caps | _ => None end
  | Lit c =>
      match s with
      | String c' s' => if Ascii.eqb c c' then k (S pos) s' caps else None
      | EmptyString => None
      end
  | Class ranges =>
      match s with
      | String c' s' => if inClass ranges c' then k (S pos) s' caps else None
      | EmptyString => None
      end
  | Cat r1 r2 =>
      run r1 pos s caps (fun pos' s' caps' => run r2 pos' s' caps' k)
  | Quest r1 =>
      match run r1 pos s caps k with
      | Some m => Some m
      | None => k pos s caps
      end
  | Plus r1 =>
      (fix loop (fuel : nat) (pos : nat) (s : string) (caps : list string)
         : option (list string) :=
         match fuel with
         | O => None
         | S fuel' =>
             run r1 pos s caps (fun pos' s' caps' =>
               match loop fuel' pos' s' caps' with
               | Some m => Some m
               | None => k pos' s' caps'
               end)
         end) (S (String.length s)) pos s caps
  | Repeat n r1 =>
      (fix rep (n : nat) (pos : nat) (s : string) (caps : list string)
         (k : Cont) : option (list string) :=
         match n with
         | O => k pos s caps
         | S n' =>
             run r1 pos s caps (fun pos' s' caps' => rep n' pos' s' caps' k)
         end) n pos s caps k
  | Group idx r1 =>
      run r1 pos s caps (fun pos' s' caps' =>
        k pos' s' (<[idx := take_str (pos' - pos) s]> caps'))
  end.

(** The number of capturing groups. *)
Fixpoint numSubexp (r : Regexp) : nat :=
  match r with
  | Cat r1 r2 => Nat.max (numSubexp r1) (numSubexp r2)
  | Quest r1 | Plus r1 | Repeat _ r1 => numSubexp r1
  | Group idx r1 => Nat.max idx (numSubexp r1)
  | _ => O
  end.

(** Try each start position from the left. *)
Fixpoint findFrom (r : Regexp) (pos : nat) (s : string) (caps : list string)
  : option (list string) :=
  match run r pos s caps
          (fun pos' _ caps' => Some (<[O := take_str (pos' - pos) s]> caps'))
  with
  | Some m => Some m
  | None =>
      match s with
      | String _ s' => findFrom r (S pos) s' caps
      | EmptyString => None
      end
  end.

(** [FindStringSubmatch]: [None] is Go's [nil]; element 0 is the match of
    the whole pattern, element [i] that of group [i]. *)
Definition FindStringSubmatch (r : Regexp) (s : string) : option (list string) :=
  findFrom r O s (replicate (S (numSubexp r)) EmptyString).

End regexp.

(** [m[i]] on a submatch slice. *)
Definition at_ (m : list string) (i : nat) : string := default EmptyString (m !! i).

(** ** The operating system, as far as the package uses it *)

Module os.

Inductive PathError := ErrNotExist | ErrPermission | ErrOther (msg : string).

(** [os.IsNotExist] on the error of a file operation. *)
Definition IsNotExist (err : option PathError) : bool :=
  match err with
  | Some ErrNotExist => true
  | _ => false
  end.

End os.

(** ** Package [boxer] *)

Module boxer.

(** [float64(i)/float64(n)], kept as its two operands. *)
Record Pct := { num : Z; den : Z }.

Section Handlers.

Context {World : Type}.

(** [func(name string, args []string, stdin io.Reader) ([]byte, error)];
    the reader is given by its contents. *)
Definition CommandExecutor : Type :=
  string -> list string -> string -> World -> (string * option error) * World.

(** [func(i, n int) error] *)
Definition Handler : Type := Z -> Z -> World -> option error * World.

(** [func(exec CommandExecutor) (w, h int, err error)] *)
Definition DesktopSizer : Type :=
  CommandExecutor -> World -> (Z * Z * option error) * World.

(** [func(path string, w, h int, pct float64) error] *)
Definition WallpaperGenerator : Type :=
  string -> Z -> Z -> Pct -> World -> option error * World.

(** [os.Stat], which reads the file system and leaves it as it is; the
    file information is dropped, as the handler drops it. *)
Variable os_Stat : string -> World -> option os.PathError.

Definition OSAScriptPath : string := "/usr/bin/osascript".

Definition setWallpaperScript : string :=
  nl +:+ "tell application " +:+ dq +:+ "Finder" +:+ dq +:+ nl +:+
  "  set desktop picture to POSIX file " +:+ dq +:+ "%s" +:+ dq +:+ nl +:+
  "end tell" +:+ nl.

Definition wallpaperName (w h i n : Z) : string :=
  fmt.Sprintf "wallpaper_%04d_%04d_%02d_%02d.png" [VInt w; VInt h; VInt i; VInt n].

Definition NewWallpaperHandler (exec : CommandExecutor) (sizer : DesktopSizer)
  (generator : WallpaperGenerator) (path : string) : Handler :=
  fun i n world =>
    (* Retrieve desktop size. *)
    let '((w, h, err), world) := sizer exec world in
    match err with
    | Some e => (Some (Errorf "desktop size: %s" [Err e]), world)
    | None =>
        (* Generate wallpaper if it doesn't exist. *)
        let imgpath := filepath.Join [path; wallpaperName w h i n] in
        let '(gerr, world) :=
          if os.IsNotExist (os_Stat imgpath world)
          then generator imgpath w h {| num := i; den := n |} world
          else (None, world) in
        match gerr with
        | Some e => (Some (Errorf "generate wallpaper: %s" [Err e]), world)
        | None =>
            (* Execute AppleScript to update the current background. *)
            let src := fmt.Sprintf (strings.TrimSpace setWallpaperScript)
                         [VStr imgpath] in
            let '((b, err), world) := exec OSAScriptPath [] src world in
            match err with
            | Some _ => (Some (Errorf "exec: %s" [Val (VStr b)]), world)
            | None => (None, world)
            end
        end
    end.

Definition desktopSizeScript : string :=
  nl +:+ "tell application " +:+ dq +:+ "Finder" +:+ dq +:+ nl +:+
  "  get bounds of window of desktop" +:+ nl +:+
  "end tell" +:+ nl.

(** [\d] *)
Definition digitClass : regexp.Regexp := regexp.Class [("0", "9")]%char.

(** [^\d+, \d+, (\d+), (\d+)] *)
Definition boundsPattern : regexp.Regexp :=
  let sep := regexp.Cat (regexp.Lit ",") (regexp.Lit " ") in
  regexp.Cat regexp.BeginText
    (regexp.Cat (regexp.Plus digitClass)
       (regexp.Cat sep
          (regexp.Cat (regexp.Plus digitClass)
             (regexp.Cat sep
                (regexp.Cat (regexp.Group 1 (regexp.Plus digitClass))
                   (regexp.Cat sep
                      (regexp.Group 2 (regexp.Plus digitClass)))))))).

Definition DesktopSize : DesktopSizer :=
  fun exec world =>
    let '((b, err), world) :=
      exec OSAScriptPath [] (strings.TrimSpace desktopSizeScript) world in
    match err with
    | Some _ => ((0, 0, Some (Errorf "exec: %s" [Val (VStr b)])), world)
    | None =>
        match regexp.FindStringSubmatch boundsPattern b with
        | None =>
            ((0, 0, Some (Errorf "unexpected exec output: %s" [Val (VStr b)])),
             world)
        | Some m =>
            let '(w, _) := strconv.Atoi (at_ m 1) in
            let '(h, _) := strconv.Atoi (at_ m 2) in
            ((w, h, None), world)
        end
    end.

Definition flashDarkModeScript : string :=
  nl +:+ "tell application " +:+ dq +:+ "System Events" +:+ dq +:+ nl +:+
  "  tell appearance preferences" +:+ nl +:+
  "    repeat 5 times" +:+ nl +:+
  "      set dark mode to true" +:+ nl +:+
  "      delay 1" +:+ nl +:+
  "      set dark mode to false" +:+ nl +:+
  "      delay 1" +:+ nl +:+
  "    end repeat" +:+ nl +:+
  "  end tell" +:+ nl +:+
  "end tell" +:+ nl.

Definition setDarkModeScript : string :=
  nl +:+ "tell application " +:+ dq +:+ "System Events" +:+ dq +:+ nl +:+
  "  tell appearance preferences" +:+ nl +:+
  "    set dark mode to %v" +:+ nl +:+
  "  end tell" +:+ nl +:+
  "end tell" +:+ nl.

Definition NewMenuBarHandler (exec : CommandExecutor) : Handler :=
  fun i n world =>
    (* Flash the menu bar on the first step. *)
    if i =? 0 then
      let '((b, err), world) :=
        exec OSAScriptPath [] (strings.TrimSpace flashDarkModeScript) world in
      match err with
      | Some _ => (Some (Errorf "exec flash: %s" [Val (VStr b)]), world)
      | None => (None, world)
      end
    else
      (* For other steps set dark mode on and off every other step. *)
      let darkMode := Z.rem i 2 =? 1 in
      let src := fmt.Sprintf (strings.TrimSpace setDarkModeScript)
                   [VBool darkMode] in
      let '((b, err), world) := exec OSAScriptPath [] src world in
      match err with
      | Some _ => (Some (Errorf "exec set dark mode: %s" [Val (VStr b)]), world)
      | None => (None, world)
      end.

End Handlers.

(** *** The ticker *)

Section Ticker.

Context {World : Type}.

(** Modelled from the spec: the [Command] struct of boxer.go, which is
    not among the sources. A scheduling unit: a name for diagnostics, a
    step, an interval (both durations in nanoseconds) and the effect. The
    field of the handler is [Handler_], the type being [Handler]. *)
Record Command := {
  Name : string;
  Step : Z;
  Interval : Z;
  Handler_ : Handler (World := World);
}.

(** Modelled from the spec: the [Ticker] struct of boxer.go, which is not
    among the sources. The commands in insertion order, the clock, and
    for each command (by its position) the last observed step index,
    absent until the command is first sampled. *)
Record Ticker := {
  Commands : list Command;
  NowFunc : World -> Z;
  lastObservedStepIndex : gmap nat Z;
}.

(** [time.Now], the system clock. *)
Variable time_Now : World -> Z.

(** Modelled from the spec: [NewTicker] of boxer.go, which is not among
    the sources: no command, the system clock, no sample taken. *)
Definition NewTicker : Ticker :=
  {| Commands := []; NowFunc := time_Now; lastObservedStepIndex := ∅ |}.

(** [ticker.Commands = append(ticker.Commands, cmd)] *)
Definition appendCommand (t : Ticker) (c : Command) : Ticker :=
  {| Commands := Commands t ++ [c];
     NowFunc := NowFunc t;
     lastObservedStepIndex := lastObservedStepIndex t |}.

(** [ticker.NowFunc = f] *)
Definition setNowFunc (t : Ticker) (f : World -> Z) : Ticker :=
  {| Commands := Commands t;
     NowFunc := f;
     lastObservedStepIndex := lastObservedStepIndex t |}.

(** Modelled from the spec: the derived quantity [interval / step]. *)
Definition stepsPerInterval (c : Command) : Z := Interval c / Step c.

(** Modelled from the spec: the absolute step index,
    [floor(epochOffset(now) / step)]. *)
Definition stepIndex (now : Z) (c : Command) : Z := now / Step c.

(** What one sample did for one command: the clock reading, the step
    index it gives and, at a crossing, the call of the effect. *)
Inductive Outcome :=
| Skipped (now idx : Z)
| Fired (now idx i n : Z) (result : option error).

Definition outcome_now (o : Outcome) : Z :=
  match o with Skipped now _ | Fired now _ _ _ _ => now end.

Definition outcome_idx (o : Outcome) : Z :=
  match o with Skipped _ idx | Fired _ idx _ _ _ => idx end.

Definition isFired (o : Outcome) : bool :=
  match o with Fired _ _ _ _ _ => true | Skipped _ _ => false end.

(** The effect was called for the step index [v]. *)
Definition firedAt (v : Z) (o : Outcome) : bool :=
  isFired o && (outcome_idx o =? v).

(** The effect was called with [i = 0]. *)
Definition firedFirst (o : Outcome) : bool :=
  match o with Fired _ _ i _ _ => i =? 0 | Skipped _ _ => false end.

Fixpoint count (p : Outcome -> bool) (os : list Outcome) : nat :=
  match os with
  | [] => O
  | o :: os' => ((if p o then 1 else 0) + count p os')%nat
  end.

(** Modelled from the spec: steps 1 to 4 of the sampling operation for
    the command at position [k]. *)
Definition sampleCommand (clock : World -> Z) (k : nat) (c : Command)
  (last : gmap nat Z) (world : World) : Outcome * gmap nat Z * World :=
  let now := clock world in
  let idx := stepIndex now c in
  let crossing :=
    match last !! k with
    | None => true
    | Some l => negb (idx =? l)
    end in
  if crossing then
    let n := stepsPerInterval c in
    let i := idx mod n in
    let '(result, world) := Handler_ c i n world in
    (Fired now idx i n result, <[k := idx]> last, world)
  else (Skipped now idx, last, world).

Fixpoint sampleFrom (clock : World -> Z) (k : nat) (cs : list Command)
  (last : gmap nat Z) (world : World) : list Outcome * gmap nat Z * World :=
  match cs with
  | [] => ([], last, world)
  | c :: cs' =>
      let '(o, last, world) := sampleCommand clock k c last world in
      let '(os, last, world) := sampleFrom clock (S k) cs' last world in
      (o :: os, last, world)
  end.

(** Modelled from the spec: the sampling operation [Tick] of boxer.go,
    which is not among the sources. Every command is sampled in
    registration order and the outcomes are returned together. *)
Definition Tick (t : Ticker) (world : World) : list Outcome * Ticker * World :=
  let '(os, last, world) :=
    sampleFrom (NowFunc t) O (Commands t) (lastObservedStepIndex t) world in
  (os,
   {| Commands := Commands t; NowFunc := NowFunc t;
      lastObservedStepIndex := last |},
   world).

(** A driver: before each sample the surroundings change the world (the
    clock advances), then [Tick] runs. The outcomes of the samples are
    returned in order, with the ticker after each. *)
Fixpoint drive (steps : list (World -> World)) (t : Ticker) (world : World)
  : list (list Outcome * Ticker) * World :=
  match steps with
  | [] => ([], world)
  | f :: steps' =>
      let '(os, t', world) := Tick t (f world) in
      let '(rest, world) := drive steps' t' world in
      ((os, t') :: rest, world)
  end.

(** The outcome [o] is what sampling [c] gives in the world [w] when the
    last observed step index is [prev]. *)
Definition sampled (clock : World -> Z) (c : Command) (w : World)
    (prev : option Z) (o : Outcome) : Prop :=
  outcome_now o = clock w /\
  outcome_idx o = stepIndex (clock w) c /\
  match o with
  | Fired _ idx i n result =>
      prev <> Some idx /\
      n = stepsPerInterval c /\
      i = idx mod n /\
      result = (Handler_ c i n w).1
  | Skipped _ idx => prev = Some idx
  end.

(** The outcomes of one command over a run: each one fires exactly when
    its step index differs from the one before. *)
Fixpoint chain (prev : option Z) (obs : list Outcome) : Prop :=
  match obs with
  | [] => True
  | o :: obs' =>
      (isFired o = true <-> prev <> Some (outcome_idx o)) /\
      chain (Some (outcome_idx o)) obs'
  end.

(** The ticker with only its first [k] commands: sampling it gives the
    state in which the command at position [k] is sampled. *)
Definition firstCommands (k : nat) (t : Ticker) : Ticker :=
  {| Commands := take k (Commands t);
     NowFunc := NowFunc t;
     lastObservedStepIndex := lastObservedStepIndex t |}.

(** The outcomes of the command at position [k] over a run. *)
Definition outcomesOf (k : nat) (run : list (list Outcome * Ticker))
  : list Outcome :=
  omap (fun r => r.1 !! k) run.

(** The last observed step index of the command at position [k] after
    each sample of a run. *)
Definition lastOf (k : nat) (run : list (list Outcome * Ticker))
  : list (option Z) :=
  map (fun r => lastObservedStepIndex r.2 !! k) run.

End Ticker.

End boxer.

(** ** The calls of the effects

    Each command of a ticker is wrapped so that every call of its effect
    is written to a log kept beside the world, with the position of the
    command, the arguments of the call and the clock reading of the world
    in which the call is made. *)

Module calls.

Record Call := { who : nat; pos : Z; steps : Z; reading : Z }.

Section Traced.

Context {World : Type}.

Definition command (clock : World -> Z) (k : nat)
  (c : boxer.Command (World := World))
  : boxer.Command (World := World * list Call) :=
  {| boxer.Name := boxer.Name c;
     boxer.Step := boxer.Step c;
     boxer.Interval := boxer.Interval c;
     boxer.Handler_ := fun i n '(world, log) =>
       let '(result, world') := boxer.Handler_ c i n world in
       (result,
        (world',
         log ++ [{| who := k; pos := i; steps := n; reading := clock world |}])) |}.

Fixpoint commandsFrom (clock : World -> Z) (k : nat)
  (cs : list (boxer.Command (World := World)))
  : list (boxer.Command (World := World * list Call)) :=
  match cs with
  | [] => []
  | c :: cs' => command clock k c :: commandsFrom clock (S k) cs'
  end.

(** The clock reads the world beside the log. *)
Definition clockOf (clock : World -> Z) : World * list Call -> Z :=
  fun st => clock st.1.

Definition ticker (t : boxer.Ticker (World := World))
  : boxer.Ticker (World := World * list Call) :=
  {| boxer.Commands := commandsFrom (boxer.NowFunc t) O (boxer.Commands t);
     boxer.NowFunc := clockOf (boxer.NowFunc t);
     boxer.lastObservedStepIndex := boxer.lastObservedStepIndex t |}.

(** What the surroundings do between two samples leaves the log alone. *)
Definition lift (f : World -> World) : World * list Call -> World * list Call :=
  fun st => (f st.1, st.2).

End Traced.

(** The calls of the command at position [k]. *)
Definition made (k : nat) (log : list Call) : list Call :=
  filter (fun call => who call = k) log.

(** The calls of the command at position [k], itself [c], which were made
    at the step index [v]. *)
Definition madeAt {World : Type} (k : nat) (c : boxer.Command (World := World))
  (v : Z) (log : list Call) : list Call :=
  filter (fun call => who call = k /\ boxer.stepIndex (reading call) c = v) log.

(** The call that an outcome records, for the command at position [k]. *)
Definition recorded (k : nat) (o : boxer.Outcome) : list Call :=
  match o with
  | boxer.Fired now _ i n _ => [{| who := k; pos := i; steps := n; reading := now |}]
  | boxer.Skipped _ _ => []
  end.

Fixpoint recordedFrom (k : nat) (os : list boxer.Outcome) : list Call :=
  match os with
  | [] => []
  | o :: os' => recorded k o ++ recordedFrom (S k) os'
  end.

(** The calls that the outcomes of one command record, in order. *)
Fixpoint recordedBy (k : nat) (obs : list boxer.Outcome) : list Call :=
  match obs with
  | [] => []
  | o :: obs' => recorded k o ++ recordedBy k obs'
  end.

(** The calls that the samples of a run record, in order. *)
Fixpoint recordedRun {World : Type}
  (run : list (list boxer.Outcome * boxer.Ticker (World := World))) : list Call :=
  match run with
  | [] => []
  | r :: run' => recordedFrom O r.1 ++ recordedRun run'
  end.

End calls.

(** ** Traces: the calls a handler makes

    The executor and the generator given to a handler are wrapped so that
    every call is written to a log kept beside the world. *)

Module trace.

Inductive Event :=
| Exec (name : string) (args : list string) (stdin : string)
| Generate (path : string) (w h : Z) (pct : boxer.Pct).

Definition isGenerate (e : Event) : bool :=
  match e with Generate _ _ _ _ => true | Exec _ _ _ => false end.

Section Traced.

Context {World : Type}.

Definition exec (e : boxer.CommandExecutor (World := World))
  : boxer.CommandExecutor (World := World * list Event) :=
  fun name args stdin '(world, log) =>
    let '(r, world) := e name args stdin world in
    (r, (world, log ++ [Exec name args stdin])).

Definition generator (g : boxer.WallpaperGenerator (World := World))
  : boxer.WallpaperGenerator (World := World * list Event) :=
  fun path w h pct '(world, log) =>
    let '(r, world) := g path w h pct world in
    (r, (world, log ++ [Generate path w h pct])).

Definition stat (os_Stat : string -> World -> option os.PathError)
  : string -> World * list Event -> option os.PathError :=
  fun path '(world, _) => os_Stat path world.

End Traced.

(** The scripts as they reach [osascript]. *)
Definition flashText : string :=
  "tell application " +:+ dq +:+ "System Events" +:+ dq +:+ nl +:+
  "  tell appearance preferences" +:+ nl +:+
  "    repeat 5 times" +:+ nl +:+
  "      set dark mode to true" +:+ nl +:+
  "      delay 1" +:+ nl +:+
  "      set dark mode to false" +:+ nl +:+
  "      delay 1" +:+ nl +:+
  "    end repeat" +:+ nl +:+
  "  end tell" +:+ nl +:+
  "end tell".

Definition darkModeText (darkMode : bool) : string :=
  "tell application " +:+ dq +:+ "System Events" +:+ dq +:+ nl +:+
  "  tell appearance preferences" +:+ nl +:+
  "    set dark mode to " +:+ (if darkMode then "true" else "false") +:+ nl +:+
  "  end tell" +:+ nl +:+
  "end tell".

Definition wallpaperText (imgpath : string) : string :=
  "tell application " +:+ dq +:+ "Finder" +:+ dq +:+ nl +:+
  "  set desktop picture to POSIX file " +:+ dq +:+ imgpath +:+ dq +:+ nl +:+
  "end tell".

End trace.

(** ** A clock that does not go back

    [P] holds of the worlds that occur; in them a change of the world keeps
    [P] and does not make [measure] of the clock reading decrease. *)

Module mono.

Section Keeps.

Context {World : Type}.
Variable P : World -> Prop.
Variable clock : World -> Z.
Variable measure : Z -> Z.

(** What the surroundings do between two samples. *)
Definition keeps (f : World -> World) : Prop :=
  forall w, P w -> P (f w) /\ measure (clock w) <= measure (clock (f w)).

(** What the effect of a command does, whatever its arguments. *)
Definition keepsCommand (c : boxer.Command (World := World)) : Prop :=
  forall i n, keeps (fun w => (boxer.Handler_ c i n w).2).

End Keeps.

End mono.

(** ** [time]: instants in nanoseconds since the Unix epoch *)

Module time.

Definition Nanosecond : Z := 1.
Definition Microsecond : Z := 1000 * Nanosecond.
Definition Millisecond : Z := 1000 * Microsecond.
Definition Second : Z := 1000 * Millisecond.
Definition Minute : Z := 60 * Second.
Definition Hour : Z := 60 * Minute.

Definition January : Z := 1.

Definition isLeap (year : Z) : bool :=
  (year mod 4 =? 0) && (negb (year mod 100 =? 0) || (year mod 400 =? 0)).

(** Days of the year before the first of [month], in a common year. *)
Definition daysBefore (month : Z) : Z :=
  nth (Z.to_nat (month - 1))
    [0; 31; 59; 90; 120; 151; 181; 212; 243; 273; 304; 334] 0.

(** Leap years up to and including [year]. *)
Definition leapsThrough (year : Z) : Z := year / 4 - year / 100 + year / 400.

(** Days from 1970-01-01 to the first of January of [year]. *)
Definition daysSinceEpoch (year : Z) : Z :=
  365 * (year - 1970) + (leapsThrough (year - 1) - leapsThrough 1969).

(** [time.Date(year, month, day, hour, min, sec, nsec, time.UTC)] for a
    date whose fields are in range. *)
Definition Date (year month day hour min sec nsec : Z) : Z :=
  let d := daysSinceEpoch year + daysBefore month
           + (if isLeap year && (3 <=? month) then 1 else 0) + (day - 1) in
  (d * 86400 + hour * 3600 + min * 60 + sec) * Second + nsec.

(** [t.Add(d)] *)
Definition Add (t d : Z) : Z := t + d.

End time.

(** ** The test of the ticker *)

Module boxer_test.

(** The variables of [TestTicker_Tick] which the closures share. *)
Record Vars := { now : Z; stepN : Z; intervalN : Z }.

Definition handler : boxer.Handler (World := Vars) :=
  fun i n v =>
    let v := {| now := now v; stepN := stepN v + 1; intervalN := intervalN v |} in
    let v := if i =? 0
             then {| now := now v; stepN := stepN v; intervalN := intervalN v + 1 |}
             else v in
    (None, v).

Definition cmd : boxer.Command :=
  {| boxer.Name := "";
     boxer.Step := 1 * time.Minute;
     boxer.Interval := 15 * time.Minute;
     boxer.Handler_ := handler |}.

(** [for i := time.Duration(0); i <= 1*time.Hour; i += 10 * time.Second] *)
Fixpoint loop (fuel : nat) (i start : Z) (ticker : boxer.Ticker) (v : Vars)
  (log : list boxer.Outcome) : option (boxer.Ticker * Vars * list boxer.Outcome) :=
  match fuel with
  | O => None
  | S fuel' =>
      if i <=? 1 * time.Hour then
        let v := {| now := time.Add start i; stepN := stepN v;
                    intervalN := intervalN v |} in
        let '(os, ticker, v) := boxer.Tick ticker v in
        loop fuel' (i + 10 * time.Second) start ticker v (log ++ os)
      else Some (ticker, v, log)
  end.

Inductive Verdict :=
| Pass
| Fatalf (format : string) (args : list Value).

(** The body of [TestTicker_Tick]; [None] when the fuel does not suffice
    for the loop. The outcomes of all samples are returned with the verdict. *)
Definition TestTicker_Tick (fuel : nat) : option (Verdict * list boxer.Outcome) :=
  (* Create a new ticker that steps every 1m and intervals every 15m. *)
  let ticker := boxer.NewTicker now in
  (* Mock the current time. *)
  let v := {| now := time.Date 2000 time.January 1 0 0 0 0;
              stepN := 0; intervalN := 0 |} in
  let ticker := boxer.setNowFunc ticker now in
  let ticker := boxer.appendCommand ticker cmd in
  (* Execute the initial tick. *)
  let '(os0, ticker, v) := boxer.Tick ticker v in
  (* Move forward 10 seconds at a time for 1h. *)
  let start := now v in
  match loop fuel 0 start ticker v os0 with
  | None => None
  | Some (_, v, log) =>
      Some (if negb (stepN v =? 61)
            then Fatalf "unexpected step count: %d" [VInt (stepN v)]
            else if negb (intervalN v =? 5)
            then Fatalf "unexpected interval count: %d" [VInt (intervalN v)]
            else Pass,
            log)
  end.

End boxer_test.

(** ** Small scenarios: a world that is only the clock reading *)

Module scenario.

Definition quiet : boxer.Handler (World := Z) := fun i n w => (None, w).

Definition failing : boxer.Handler (World := Z) :=
  fun i n w => (Some (Errorf "effect failed" []), w).

Definition command (h : boxer.Handler (World := Z)) : boxer.Command :=
  {| boxer.Name := "";
     boxer.Step := 1 * time.Minute;
     boxer.Interval := 15 * time.Minute;
     boxer.Handler_ := h |}.

(** A ticker with the given commands which reads the world as the clock. *)
Definition ticker (cs : list boxer.Command) : boxer.Ticker :=
  fold_left boxer.appendCommand cs (boxer.NewTicker (fun w : Z => w)).

(** The surroundings set the clock to [now]. *)
Definition at_time (now : Z) : Z -> Z := fun _ => now.

(** The clock goes forward by a minute and then back. *)
Definition regression : list (Z -> Z) :=
  [at_time 0; at_time (1 * time.Minute); at_time 0].

(** Three samples within one minute, and three over two minutes. *)
Definition within_step : list (Z -> Z) :=
  [at_time 0; at_time (10 * time.Second); at_time (59 * time.Second)].

Definition forward : list (Z -> Z) :=
  [at_time 0; at_time (30 * time.Second); at_time (1 * time.Minute)].

(** One command whose effect succeeds. *)
Definition single : boxer.Ticker := ticker [command quiet].

(** The surroundings let the clock go on by [d]. *)
Definition advance (d : Z) : Z -> Z := fun w => w + d.

(** Three samples while the clock goes on by a minute. *)
Definition advancing : list (Z -> Z) :=
  [advance 0; advance (30 * time.Second); advance (30 * time.Second)].

(** Three samples a minute apart. *)
Definition minutes : list (Z -> Z) :=
  [advance 0; advance (1 * time.Minute); advance (1 * time.Minute)].

(** The clock reading is within the first minute after the epoch. *)
Definition firstMinute (w : Z) : Prop := 0 <= w < 1 * time.Minute.

(** A command with the given step and interval. *)
Definition every (step interval : Z) : boxer.Command (World := Z) :=
  {| boxer.Name := "";
     boxer.Step := step;
     boxer.Interval := interval;
     boxer.Handler_ := quiet |}.

(** A step of one minute with an interval of minus fifteen minutes. *)
Definition negativeInterval : boxer.Ticker :=
  ticker [every (1 * time.Minute) (- (15 * time.Minute))].

(** A step of minus one minute. *)
Definition backwards : boxer.Ticker :=
  ticker [every (- (1 * time.Minute)) (15 * time.Minute)].

(** A command whose effect always fails, then one whose effect succeeds. *)
Definition faulty : boxer.Ticker := ticker [command failing; command quiet].

End scenario.

(** ** [cmd/boxer] *)

Module main.

Record RGBA := { R : Z; G : Z; B : Z; A : Z }.

Definition RGBA_zero : RGBA := {| R := 0; G := 0; B := 0; A := 0 |}.

Definition uint8 (z : Z) : Z := z mod 256.

(** [[0-9a-fA-F]] *)
Definition hexClass : regexp.Regexp :=
regexp.Class [("0", "9"); ("a", "f"); ("A", "F")]%char.

(** [^#?([0-9a-fA-F]{2})([0-9a-fA-F]{2})([0-9a-fA-F]{2})$] *)
Definition colorPattern : regexp.Regexp :=
regexp.Cat regexp.BeginText
  (regexp.Cat (regexp.Quest (regexp.Lit "#"))
     (regexp.Cat (regexp.Group 1 (regexp.Repeat 2 hexClass))
        (regexp.Cat (regexp.Group 2 (regexp.Repeat 2 hexClass))
           (regexp.Cat (regexp.Group 3 (regexp.Repeat 2 hexClass))
              regexp.EndText)))).

Definition ParseColor (s : string) : RGBA * option error :=
match regexp.FindStringSubmatch colorPattern s with
| None => (RGBA_zero, Some (Errorf "cannot parse color: %q" [Val (VStr s)]))
| Some m =>
    let '(r, _) := strconv.ParseUint (at_ m 1) 16 8 in
    let '(g, _) := strconv.ParseUint (at_ m 2) 16 8 in
    let '(b, _) := strconv.ParseUint (at_ m 3) 16 8 in
    ({| R := uint8 r; G := uint8 g; B := uint8 b; A := 255 |}, None)
end.


(** *** Hexadecimal colours, as the documentation words them

    These definitions are not taken from the code: they say what a
    hexadecimal colour is, for [ParseColor] to be compared with. *)

Definition isHexDigit (c : ascii) : bool :=
  existsb (Ascii.eqb c) (list_ascii_of_string "0123456789abcdefABCDEF").

Definition hexValue (c : ascii) : Z :=
  match c with
  | "0" => 0 | "1" => 1 | "2" => 2 | "3" => 3 | "4" => 4
  | "5" => 5 | "6" => 6 | "7" => 7 | "8" => 8 | "9" => 9
  | "a" | "A" => 10 | "b" | "B" => 11 | "c" | "C" => 12
  | "d" | "D" => 13 | "e" | "E" => 14 | "f" | "F" => 15
  | _ => 0
  end%char.

(** The byte written by the two hexadecimal digits [hi] and [lo]. *)
Definition hexByte (hi lo : ascii) : Z := 16 * hexValue hi + hexValue lo.

Definition six (h1 h2 h3 h4 h5 h6 : ascii) : string :=
  String h1 (String h2 (String h3 (String h4 (String h5 (String h6 EmptyString))))).

(** [s] is an optional [#] followed by the six hexadecimal digits. *)
Definition colorSyntax (s : string) (h1 h2 h3 h4 h5 h6 : ascii) : Prop :=
  (s = six h1 h2 h3 h4 h5 h6 \/ s = String "#" (six h1 h2 h3 h4 h5 h6)) /\
  Forall (fun h => isHexDigit h = true) [h1; h2; h3; h4; h5; h6].

Definition stripHash (s : string) : string :=
  match s with
  | String c s' => if Ascii.eqb "#" c then s' else s
  | EmptyString => s
  end.

(** The colour a string denotes, if it is a hexadecimal colour. *)
Definition colorOf (s : string) : option RGBA :=
  match stripHash s with
  | String h1 (String h2 (String h3 (String h4 (String h5 (String h6 EmptyString))))) =>
      if forallb isHexDigit [h1; h2; h3; h4; h5; h6]
      then Some {| R := hexByte h1 h2; G := hexByte h3 h4; B := hexByte h5 h6;
                   A := 255 |}
      else None
  | _ => None
  end.

(** [Duration] wraps a [time.Duration]. *)
Record Duration := { Duration_ : Z }.

Record WallpaperConfig := {
  Enabled : bool;
  Step : Duration;
  Interval : Duration;
  Foreground : string;
  Background : string;
}.

Record Config := {
  WorkDir : string;
  Wallpaper : WallpaperConfig;
}.

Definition NewConfig : Config :=
  {| WorkDir := "";
     Wallpaper :=
       {| Enabled := false;
          Step := {| Duration_ := 1 * time.Minute |};
          Interval := {| Duration_ := 15 * time.Minute |};
          Foreground := "#9AC97C";
          Background := "#534B4D" |} |}.

Section NewTicker.

Context {World : Type}.

(** [time.Now] and [os.Stat]. *)
Variable time_Now : World -> Z.
Variable os_Stat : string -> World -> option os.PathError.

(** [boxer.NewWallpaperGenerator], which draws and encodes the image: it
    is used here through its type only. *)
Variable NewWallpaperGenerator :
  RGBA -> RGBA -> boxer.WallpaperGenerator (World := World).

Definition NewTicker (c : Config) (exec : boxer.CommandExecutor)
  : option boxer.Ticker * option error :=
  let t := boxer.NewTicker time_Now in
  if Enabled (Wallpaper c) then
    (* Parse foreground color from config. *)
    let '(foreground, err) := ParseColor (Foreground (Wallpaper c)) in
    match err with
    | Some e => (None, Some (Errorf "parse wallpaper foreground: %s" [Err e]))
    | None =>
        (* Parse background color from config. *)
        let '(background, err) := ParseColor (Background (Wallpaper c)) in
        match err with
        | Some e =>
            (None, Some (Errorf "parse wallpaper background: %s" [Err e]))
        | None =>
            (* Create a wallpaper generator. *)
            let generator := NewWallpaperGenerator foreground background in
            (* Generate a new command. *)
            let t := boxer.appendCommand t
              {| boxer.Name := "wallpaper";
                 boxer.Step := Duration_ (Step (Wallpaper c));
                 boxer.Interval := Duration_ (Interval (Wallpaper c));
                 boxer.Handler_ :=
                   boxer.NewWallpaperHandler os_Stat exec boxer.DesktopSize
                     generator (filepath.Join [WorkDir c; "wallpaper"]) |} in
            (Some t, None)
        end
    end
  else (Some t, None).

End NewTicker.

End main.

(** ** A configuration whose interval is not a multiple of its step *)

Module odd_config.

Definition config : main.Config :=
  {| main.WorkDir := "/tmp/boxer";
     main.Wallpaper :=
       {| main.Enabled := true;
          main.Step := {| main.Duration_ := 7 * time.Second |};
          main.Interval := {| main.Duration_ := 15 * time.Second |};
          main.Foreground := "#9AC97C";
          main.Background := "#534B4D" |} |}.

(** A world that is only the clock reading; [osascript] prints the bounds
    of a desktop and every file exists. *)
Definition exec : boxer.CommandExecutor (World := Z) :=
  fun _ _ _ w => ("0, 0, 1440, 900", None, w).

Definition os_Stat : string -> Z -> option os.PathError := fun _ _ => None.

Definition NewWallpaperGenerator (fg bg : main.RGBA)
  : boxer.WallpaperGenerator (World := Z) :=
  fun _ _ _ _ w => (None, w).

Definition ticker : option boxer.Ticker * option error :=
  main.NewTicker (fun w : Z => w) os_Stat NewWallpaperGenerator config exec.

(** The durations of the commands of a ticker. *)
Definition durations {World : Type} (t : boxer.Ticker (World := World))
  : list (string * Z * Z) :=
  map (fun c => (boxer.Name c, boxer.Step c, boxer.Interval c))
    (boxer.Commands t).

End odd_config.

(** ** Further definitions: lower case *)

Module lowercase.

Definition lower (c : ascii) : ascii :=
  if in_range "A" "Z" c then ascii_of_nat (nat_of_ascii c + 32) else c.

Fixpoint lowerStr (s : string) : string :=
  match s with
  | EmptyString => EmptyString
  | String c s' => String (lower c) (lowerStr s')
  end.

End lowercase.

(** ** Further definitions: the loop of [r+] and decimal strings *)

Module plus.

(** The loop that [regexp.run] makes for [r+], with its fuel. *)
Definition loop (r1 : regexp.Regexp) (k : regexp.Cont) :=
  fix loop (fuel : nat) (pos : nat) (s : string) (caps : list string)
    : option (list string) :=
    match fuel with
    | O => None
    | S fuel' =>
        regexp.run r1 pos s caps (fun pos' s' caps' =>
          match loop fuel' pos' s' caps' with
          | Some m => Some m
          | None => k pos' s' caps'
          end)
    end.

(** A string that is empty or begins with a byte that is no digit. *)
Definition noDigitAhead (s : string) : bool :=
  match s with
  | EmptyString => true
  | String c _ => negb (fmt.isDigit c)
  end.

(** A non-empty string of decimal digits. *)
Definition isNumber (s : string) : bool :=
  negb (String.eqb s "") && readback.allChars fmt.isDigit s.

(** The value of a string of decimal digits, held in an [int]. *)
Definition intValue (s : string) : Z :=
  Z.min (readback.decAcc s 0) strconv.maxInt64.

End plus.

(** ** Further definitions: file names *)

Module names.

Definition notSlash (c : ascii) : bool := negb (Ascii.eqb c "/").

(** A name of one element: not empty, without separator, not beginning
    with a dot. *)
Definition simpleName (s : string) : bool :=
  match s with
  | String c r =>
      notSlash c && negb (Ascii.eqb c ".") && readback.allChars notSlash r
  | EmptyString => false
  end.

End names.

(** ** [flag]: a flag set in which no flag is defined *)

Module flag.

Inductive ParseError :=
| ErrHelp
| BadSyntax (s : string)
| NotDefined (name : string).

Definition toError (e : ParseError) : error :=
  match e with
  | ErrHelp => Errorf "flag: help requested" []
  | BadSyntax s => Errorf "bad flag syntax: %s" [Val (VStr s)]
  | NotDefined name =>
      Errorf "flag provided but not defined: -%s" [Val (VStr name)]
  end.

(** [name[0:i]] for the first [=] at an index [i >= 1], else [name]. *)
Fixpoint beforeEquals (s : string) : string :=
  match s with
  | EmptyString => EmptyString
  | String c s' => if Ascii.eqb c "=" then EmptyString else String c (beforeEquals s')
  end.

Definition flagName (name : string) : string :=
  match name with
  | EmptyString => EmptyString
  | String c rest => String c (beforeEquals rest)
  end.

(** [parseOne] on the first argument: [None] when it is no flag and the
    parsing ends without error. With no flag defined, a flag is an error. *)
Definition parseOne (args : list string) : option ParseError :=
  match args with
  | [] => None
  | s :: _ =>
      match s with
      | String c0 (String c1 rest) =>
          if negb (Ascii.eqb c0 "-") then None
          else
            let '(twoMinuses, name) :=
              if Ascii.eqb c1 "-" then (true, rest) else (false, String c1 rest) in
            if twoMinuses && String.eqb rest "" then None
            else
              match name with
              | EmptyString => Some (BadSyntax s)
              | String n0 _ =>
                  if Ascii.eqb n0 "-" || Ascii.eqb n0 "=" then Some (BadSyntax s)
                  else
                    let name := flagName name in
                    if String.eqb name "help" || String.eqb name "h"
                    then Some ErrHelp
                    else Some (NotDefined name)
              end
      | _ => None
      end
  end.

(** [Parse] with [ContinueOnError]: the first argument decides, since no
    flag is ever seen. What it writes to standard error is left out. *)
Definition Parse (args : list string) : option error :=
  option_map toError (parseOne args).

End flag.

(** ** [cmd/boxer]: the program *)

Module program.

(** What is known of [Run] after [fuel] rounds of its loop: it has returned,
    it is still in its loop, none of the rounds having panicked, or it has
    been stopped by a run-time panic. *)
Inductive RunResult :=
| Returned (err : option error)
| Running
| Panicked.

Section Program.

Context {World : Type}.

(** [user.Current], of which the home directory is used. *)
Variable user_Current : World -> (string * option error) * World.

(** [toml.DecodeFile(path, &config)]: the configuration after decoding. *)
Variable toml_DecodeFile :
  string -> main.Config -> World -> (main.Config * option error) * World.

(** [ioutil.TempDir(dir, prefix)] *)
Variable ioutil_TempDir : string -> string -> World -> (string * option error) * World.

(** [log.Printf] and [time.Sleep] *)
Variable log_Printf : string -> list Value -> World -> World.
Variable time_Sleep : Z -> World -> World.

Variable time_Now : World -> Z.
Variable os_Stat : string -> World -> option os.PathError.
Variable NewWallpaperGenerator :
  main.RGBA -> main.RGBA -> boxer.WallpaperGenerator (World := World).

Definition DefaultTickInterval : Z := 1 * time.Second.

Record Main := {
  TickInterval : Z;
  Executor : boxer.CommandExecutor (World := World);
}.

Definition DefaultConfigPath (world : World) : (string * option error) * World :=
  let '((home, err), world) := user_Current world in
  match err with
  | Some e => ((EmptyString, Some e), world)
  | None => ((filepath.Join [home; "boxer.conf"], None), world)
  end.

Definition ReadConfig (m : Main) (path : string) (world : World)
  : (option main.Config * option error) * World :=
  (* If no path is provided then use the default path. *)
  let '((path, err), world) :=
    if String.eqb path ""
    then DefaultConfigPath world
    else ((path, None), world) in
  match err with
  | Some e => ((None, Some (Errorf "default config path: %s" [Err e])), world)
  | None =>
      (* Decode file into config. *)
      let '((config, err), world) := toml_DecodeFile path main.NewConfig world in
      match err with
      | Some e => ((None, Some e), world)
      | None => ((Some config, None), world)
      end
  end.

Definition setWorkDir (c : main.Config) (dir : string) : main.Config :=
  {| main.WorkDir := dir; main.Wallpaper := main.Wallpaper c |}.

(** A sample can stop the program with a run-time panic: an integer
    division by zero where [Tick] divides by a step or takes a position
    modulo [n], or an image that [image.NewRGBA] refuses in the generator.
    Neither [Tick] nor the image library is among the sources, so which
    samples panic is left open: [panics ticker world] says that the sample
    taken by [ticker] in [world] does. *)
Variable panics : boxer.Ticker (World := World) -> World -> bool.

(** [for { ticker.Tick(); time.Sleep(m.TickInterval) }], for [fuel] rounds.
    A sample that panics ends the loop; the world returned is then the one
    in which that sample began, what it did before it panicked being
    unknown. *)
Fixpoint tickLoop (fuel : nat) (m : Main) (ticker : boxer.Ticker) (world : World)
  : RunResult * World :=
  match fuel with
  | O => (Running, world)
  | S fuel' =>
      if panics ticker world then (Panicked, world)
      else
        let '(_, ticker, world) := boxer.Tick ticker world in
        let world := time_Sleep (TickInterval m) world in
        tickLoop fuel' m ticker world
  end.

(** [Run], called once in a process (a second call would define the flag
    [config] again). That flag is defined on the command line of the
    process, which is never parsed, so that its value is its default; the
    arguments are parsed by a flag set of their own, in which no flag is
    defined. *)
Definition Run (fuel : nat) (m : Main) (args : list string) (world : World)
  : RunResult * World :=
  (* Parse CLI arguments. *)
  let configPath := EmptyString in
  match flag.Parse args with
  | Some err => (Returned (Some err), world)
  | None =>
      (* Read configuration file. *)
      let '((config, err), world) := ReadConfig m configPath world in
      match config, err with
      | _, Some e => (Returned (Some (Errorf "read config: %s" [Err e])), world)
      | None, None => (Panicked, world)
      | Some config, None =>
          (* Use a temp directory if no work directory is set. *)
          let '((config, err), world) :=
            if String.eqb (main.WorkDir config) ""
            then
              let '((str, err), world) := ioutil_TempDir "" "boxer-" world in
              match err with
              | Some e => ((config, Some e), world)
              | None => ((setWorkDir config str, None), world)
              end
            else ((config, None), world) in
          match err with
          | Some e => (Returned (Some (Errorf "temp dir: %s" [Err e])), world)
          | None =>
              (* Create a new ticker based on the config. *)
              match main.NewTicker time_Now os_Stat NewWallpaperGenerator
                      config (Executor m) with
              | (_, Some e) =>
                  (Returned (Some (Errorf "cannot create ticker: %s" [Err e])), world)
              | (None, None) => (Panicked, world)
              | (Some ticker, None) =>
                  (* Notify user of the current settings. *)
                  let world :=
                    log_Printf "Boxer running with %d commands..."
                      [VInt (Z.of_nat (length (boxer.Commands ticker)))] world in
                  (* Begin ticking. *)
                  tickLoop fuel m ticker world
              end
          end
      end
  end.

End Program.

End program.

(** ** A program in a world that is only the clock reading *)

Module program_demo.

Definition user_Current : Z -> (string * option error) * Z :=
  fun w => (("/Users/ben", None), w).

(** A configuration file which enables the wallpaper. *)
Definition decodeEnabled : string -> main.Config -> Z -> (main.Config * option error) * Z :=
  fun _ c w =>
    (({| main.WorkDir := "/tmp/boxer";
         main.Wallpaper :=
           {| main.Enabled := true;
              main.Step := main.Step (main.Wallpaper c);
              main.Interval := main.Interval (main.Wallpaper c);
              main.Foreground := main.Foreground (main.Wallpaper c);
              main.Background := main.Background (main.Wallpaper c) |} |}, None), w).

(** Only the file in the home directory can be decoded. *)
Definition decodeHome : string -> main.Config -> Z -> (main.Config * option error) * Z :=
  fun path c w =>
    if String.eqb path "/Users/ben/boxer.conf" then decodeEnabled path c w
    else ((c, Some (Errorf "open %s: no such file or directory" [Val (VStr path)])), w).

Definition ioutil_TempDir : string -> string -> Z -> (string * option error) * Z :=
  fun _ prefix w => (("/tmp/" +:+ prefix +:+ "1", None), w).

Definition log_Printf : string -> list Value -> Z -> Z := fun _ _ w => w.

(** Sleeping lets the clock advance. *)
Definition time_Sleep : Z -> Z -> Z := fun d w => w + d.

(** No sample panics in this world: the steps are a minute long and the
    generator draws no image. *)
Definition panics : boxer.Ticker (World := Z) -> Z -> bool := fun _ _ => false.

Definition m : program.Main :=
  {| program.TickInterval := program.DefaultTickInterval;
     program.Executor := odd_config.exec |}.

Definition Run (decode : string -> main.Config -> Z -> (main.Config * option error) * Z)
  (fuel : nat) (args : list string) (world : Z) : program.RunResult * Z :=
  program.Run user_Current decode ioutil_TempDir log_Printf time_Sleep
    (fun w => w) odd_config.os_Stat odd_config.NewWallpaperGenerator
    panics fuel m args world.

End program_demo.

(** ** A configuration file that sets nothing *)

Module empty_config.

Definition decode : string -> main.Config -> Z -> (main.Config * option error) * Z :=
  fun _ c w => ((c, None), w).

(** An executor that always fails. *)
Definition failing : boxer.CommandExecutor (World := Z) :=
  fun _ _ _ w => (EmptyString, Some (Errorf "exit status 1" []), w).

Definition Run (exec : boxer.CommandExecutor (World := Z)) (fuel : nat) (world : Z)
  : program.RunResult * Z :=
  program.Run program_demo.user_Current decode program_demo.ioutil_TempDir
    program_demo.log_Printf program_demo.time_Sleep
    (fun w => w) odd_config.os_Stat odd_config.NewWallpaperGenerator
    program_demo.panics fuel
    {| program.TickInterval := program.DefaultTickInterval;
       program.Executor := exec |}
    [] world.

End empty_config.
(** * Properties *)

(** ** Colours *)

Example ParseColor_default_fg :
  main.ParseColor "#9AC97C" = ({| main.R := 154; main.G := 201; main.B := 124; main.A := 255 |}, None).
Proof. vm_compute. reflexivity. Qed.

Example ParseColor_no_hash :
  main.ParseColor "534b4D" = ({| main.R := 83; main.G := 75; main.B := 77; main.A := 255 |}, None).
Proof. vm_compute. reflexivity. Qed.

Example ParseColor_short :
  fst (main.ParseColor "#9AC97") = main.RGBA_zero /\ is_Some (snd (main.ParseColor "#9AC97")).
Proof. vm_compute. eauto. Qed.

Example ParseColor_trailing :
  fst (main.ParseColor "#9AC97C0") = main.RGBA_zero /\ is_Some (snd (main.ParseColor "9AC97C ")).
Proof. vm_compute. eauto. Qed.

Example Sprintf_name :
  fmt.Sprintf "wallpaper_%04d_%04d_%02d_%02d.png" [VInt 1440; VInt 900; VInt 3; VInt 15]
  = "wallpaper_1440_0900_03_15.png".
Proof. vm_compute. reflexivity. Qed.

Example Sprintf_name_neg :
  fmt.Sprintf "w_%04d_%04d_%02d_%02d" [VInt (-5); VInt 123456; VInt (-3); VInt 0]
  = "w_-005_123456_-3_00".
Proof. vm_compute. reflexivity. Qed.

Example Join_ex1 : filepath.Join ["/tmp//boxer-1/"; "wallpaper"] = "/tmp/boxer-1/wallpaper".
Proof. vm_compute. reflexivity. Qed.

Example Join_ex2 : filepath.Join [""; "a/../../b/./c"] = "../b/c".
Proof. vm_compute. reflexivity. Qed.

Example Join_ex3 : filepath.Join ["/.."; ""; "x"] = "/x".
Proof. vm_compute. reflexivity. Qed.

(** ** The ticker *)

Section TickerFacts.

Context {World : Type}.

Abbreviation Command := (boxer.Command (World := World)).
Abbreviation Ticker := (boxer.Ticker (World := World)).

Implicit Types (c : Command) (t : Ticker) (cs : list Command).
Implicit Types (o : boxer.Outcome) (last : gmap nat Z) (k j : nat).
Implicit Types (w : World) (clock : World -> Z).

Lemma sampleCommand_inv clock k c last w o last' w' :
  boxer.sampleCommand clock k c last w = (o, last', w') ->
  boxer.sampled clock c w (last !! k) o /\
  last' !! k = Some (boxer.outcome_idx o) /\
  (forall j, j <> k -> last' !! j = last !! j).
Proof.
  unfold boxer.sampleCommand, boxer.sampled.
  destruct (last !! k) as [l|] eqn:Hl; simpl.
  - destruct (Z.eqb_spec (boxer.stepIndex (clock w) c) l) as [He|Hne]; simpl.
    + intros [= <- <- <-]; simpl. rewrite Hl, He. auto.
    + destruct (boxer.Handler_ c _ _ w) as [r w1] eqn:Hh.
      intros [= <- <- <-]; simpl. rewrite Hh; simpl.
      rewrite lookup_insert_eq.
      repeat split; auto; try congruence.
      intros j Hj. by rewrite lookup_insert_ne.
  - destruct (boxer.Handler_ c _ _ w) as [r w1] eqn:Hh.
    intros [= <- <- <-]; simpl. rewrite Hh; simpl.
    rewrite lookup_insert_eq.
    repeat split; auto; try congruence.
    intros j Hj. by rewrite lookup_insert_ne.
Qed.

Lemma sampleFrom_inv clock cs : forall k last w os last' w',
  boxer.sampleFrom clock k cs last w = (os, last', w') ->
  length os = length cs /\
  (forall j, (j < k \/ k + length cs <= j)%nat -> last' !! j = last !! j) /\
  (forall j c, cs !! j = Some c ->
     exists o wj, os !! j = Some o /\
       boxer.sampled clock c wj (last !! (k + j)%nat) o /\
       last' !! (k + j)%nat = Some (boxer.outcome_idx o) /\
       (j = O -> wj = w)).
Proof.
  induction cs as [|c0 cs IH]; intros k last w os last' w'; simpl.
  - intros [= <- <- <-]. split; [done|]. split; [done|]. intros j c Hj. done.
  - destruct (boxer.sampleCommand clock k c0 last w) as [[o0 last0] w0] eqn:H0.
    destruct (boxer.sampleFrom clock (S k) cs last0 w0) as [[os1 last1] w1] eqn:H1.
    intros [= <- <- <-].
    apply sampleCommand_inv in H0 as (Hs0 & Hk0 & Hother0).
    apply IH in H1 as (Hlen & Hout & Hin).
    split; [simpl; congruence|].
    split.
    + intros j Hj. rewrite Hout by lia. apply Hother0. lia.
    + intros [|j] c Hc.
      * assert (c = c0) as -> by (by inversion Hc). exists o0, w. simpl.
        rewrite Nat.add_0_r. rewrite Hout by lia.
        split; [reflexivity|]. split; [exact Hs0|]. split; [exact Hk0|]. done.
      * change ((c0 :: cs) !! S j) with (cs !! j) in Hc.
        destruct (Hin j c Hc) as (o & wj & Ho & Hs & Hl & _).
        exists o, wj. simpl.
        replace (k + S j)%nat with (S k + j)%nat by lia.
        rewrite Hother0 in Hs by lia.
        split; [exact Ho|]. split; [exact Hs|]. split; [exact Hl|].
        intros Hj. discriminate Hj.
Qed.

(** One sample of the ticker, command by command. *)
Lemma Tick_inv t w os t' w' :
  boxer.Tick t w = (os, t', w') ->
  boxer.Commands t' = boxer.Commands t /\
  boxer.NowFunc t' = boxer.NowFunc t /\
  length os = length (boxer.Commands t) /\
  (forall j, (length (boxer.Commands t) <= j)%nat ->
     boxer.lastObservedStepIndex t' !! j = boxer.lastObservedStepIndex t !! j) /\
  (forall k c, boxer.Commands t !! k = Some c ->
     exists o wk, os !! k = Some o /\
       boxer.sampled (boxer.NowFunc t) c wk (boxer.lastObservedStepIndex t !! k) o /\
       boxer.lastObservedStepIndex t' !! k = Some (boxer.outcome_idx o) /\
       (k = O -> wk = w)).
Proof.
  unfold boxer.Tick.
  destruct (boxer.sampleFrom _ _ _ _ _) as [[os1 last1] w1] eqn:H1.
  intros [= <- <- <-]; simpl.
  apply sampleFrom_inv in H1 as (Hlen & Hout & Hin).
  split; [done|]. split; [done|]. split; [done|]. split.
  - intros j Hj. apply Hout. lia.
  - exact Hin.
Qed.

Lemma sampled_fired clock c w prev o :
  boxer.sampled clock c w prev o ->
  (boxer.isFired o = true <-> prev <> Some (boxer.outcome_idx o)).
Proof.
  intros (_ & _ & H). destruct o as [now idx|now idx i n r]; simpl in *.
  - split; [discriminate|]. intros Hp. by destruct Hp.
  - destruct H as (H & _). split; auto.
Qed.

Lemma drive_inv steps : forall t w run w' k c,
  boxer.drive steps t w = (run, w') ->
  boxer.Commands t !! k = Some c ->
  let obs := boxer.outcomesOf k run in
  length obs = length steps /\
  boxer.chain (boxer.lastObservedStepIndex t !! k) obs /\
  boxer.lastOf k run = map (fun o => Some (boxer.outcome_idx o)) obs /\
  Forall (fun o => boxer.outcome_idx o = boxer.stepIndex (boxer.outcome_now o) c) obs.
Proof.
  induction steps as [|f steps IH]; intros t w run w' k c; simpl.
  - intros [= <- <-] Hc. simpl. auto.
  - destruct (boxer.Tick t (f w)) as [[os t1] w1] eqn:HT.
    destruct (boxer.drive steps t1 w1) as [rest w2] eqn:HD.
    intros [= <- <-] Hc.
    apply Tick_inv in HT as (Hcs & Hclock & Hlen & Hout & Hin).
    destruct (Hin k c Hc) as (o & wk & Ho & Hs & Hl & _).
    assert (Hc1 : boxer.Commands t1 !! k = Some c) by (by rewrite Hcs).
    destruct (IH t1 w1 rest w2 k c HD Hc1) as (IH1 & IH2 & IH3 & IH4).
    unfold boxer.outcomesOf, boxer.lastOf in *. simpl. rewrite Ho. simpl.
    split; [simpl; f_equal; exact IH1|]. split.
    + split; [by eapply sampled_fired|]. by rewrite <- Hl.
    + split; [by rewrite Hl, IH3|].
      constructor; [|done]. destruct Hs as (Hn & Hi & _). by rewrite Hn.
Qed.

(** Outside the commands nothing is sampled. *)
Lemma drive_out_of_range steps : forall t w run w' k,
  boxer.drive steps t w = (run, w') ->
  boxer.Commands t !! k = None ->
  boxer.outcomesOf k run = [].
Proof.
  induction steps as [|f steps IH]; intros t w run w' k; simpl.
  - by intros [= <- <-].
  - destruct (boxer.Tick t (f w)) as [[os t1] w1] eqn:HT.
    destruct (boxer.drive steps t1 w1) as [rest w2] eqn:HD.
    intros [= <- <-] Hc.
    apply Tick_inv in HT as (Hcs & _ & Hlen & _).
    unfold boxer.outcomesOf in *. simpl.
    assert (os !! k = None) as ->.
    { apply lookup_ge_None. rewrite Hlen. by apply lookup_ge_None. }
    simpl. eapply IH; [exact HD|]. by rewrite Hcs.
Qed.

(** Once the step index [l] is the last observed one, and the indices to
    come are not below it, no index up to [l] fires again. *)
Lemma chain_no_refire v : forall obs l,
  boxer.chain (Some l) obs ->
  Sorted Z.le (l :: map boxer.outcome_idx obs) ->
  v <= l ->
  boxer.count (boxer.firedAt v) obs = O.
Proof.
  induction obs as [|o obs IH]; intros l Hch Hs Hv; simpl in *; [done|].
  destruct Hch as [Hf Hch].
  apply Sorted_inv in Hs as [Hs Hhd]. apply HdRel_inv in Hhd.
  rewrite (IH (boxer.outcome_idx o)); [|done|done|lia].
  unfold boxer.firedAt.
  destruct (boxer.isFired o) eqn:Hfo; simpl; [|done].
  destruct (Z.eqb_spec (boxer.outcome_idx o) v) as [He|]; [|done].
  exfalso. apply (proj1 Hf); [done|]. f_equal. lia.
Qed.

Lemma chain_fires_once v : forall obs prev,
  boxer.chain prev obs ->
  Sorted Z.le (map boxer.outcome_idx obs) ->
  (boxer.count (boxer.firedAt v) obs <= 1)%nat.
Proof.
  induction obs as [|o obs IH]; intros prev Hch Hs; simpl in *; [lia|].
  destruct Hch as [Hf Hch].
  unfold boxer.firedAt at 1.
  destruct (boxer.isFired o && (boxer.outcome_idx o =? v)) eqn:Hb.
  - apply andb_true_iff in Hb as [_ Hb]. apply Z.eqb_eq in Hb.
    rewrite (chain_no_refire v obs (boxer.outcome_idx o)); [lia|done|done|lia].
  - apply Sorted_inv in Hs as [Hs _].
    specialize (IH _ Hch Hs). lia.
Qed.

Lemma same_idx_sorted v obs :
  Forall (fun o => boxer.outcome_idx o = v) obs ->
  Sorted Z.le (map boxer.outcome_idx obs).
Proof.
  induction obs as [|o obs IH]; intros HF; simpl; [constructor|].
  apply Forall_cons in HF as [Ho HF]. constructor; [by apply IH|].
  destruct obs as [|o' obs]; simpl; constructor.
  apply Forall_cons in HF as [Ho' _]. lia.
Qed.

Lemma count_same_idx v obs :
  Forall (fun o => boxer.outcome_idx o = v) obs ->
  boxer.count boxer.isFired obs = boxer.count (boxer.firedAt v) obs.
Proof.
  induction 1 as [|o obs Ho _ IH]; simpl; [done|].
  rewrite IH. unfold boxer.firedAt. rewrite Ho, Z.eqb_refl, andb_true_r. done.
Qed.

Lemma idx_sorted c obs :
  0 < boxer.Step c ->
  Forall (fun o => boxer.outcome_idx o = boxer.stepIndex (boxer.outcome_now o) c) obs ->
  Sorted Z.le (map boxer.outcome_now obs) ->
  Sorted Z.le (map boxer.outcome_idx obs).
Proof.
  intros Hstep. induction 1 as [|o obs Ho Hall IH]; simpl; [constructor|].
  intros Hs. apply Sorted_inv in Hs as [Hs Hhd].
  constructor; [auto|].
  destruct Hall as [|o' obs Ho' _]; simpl in *; constructor.
  apply HdRel_inv in Hhd. rewrite Ho, Ho'. unfold boxer.stepIndex.
  by apply Z.div_le_mono.
Qed.

End TickerFacts.

(** ** The calls of the effects *)

Section CallFacts.

Context {World : Type}.

Abbreviation Command := (boxer.Command (World := World)).
Abbreviation Ticker := (boxer.Ticker (World := World)).

Implicit Types (c : Command) (t : Ticker) (cs : list Command).
Implicit Types (o : boxer.Outcome) (last : gmap nat Z) (k j : nat).
Implicit Types (w : World) (clock : World -> Z) (log : list calls.Call).

Lemma sampleFrom_app {W : Type} (clock : W -> Z)
  (cs1 cs2 : list (boxer.Command (World := W))) : forall k last (st : W),
  boxer.sampleFrom clock k (cs1 ++ cs2) last st =
  let '(os1, last1, st1) := boxer.sampleFrom clock k cs1 last st in
  let '(os2, last2, st2) :=
    boxer.sampleFrom clock (k + length cs1) cs2 last1 st1 in
  (os1 ++ os2, last2, st2).
Proof.
  induction cs1 as [|c cs1 IH]; intros k last st; simpl.
  - rewrite Nat.add_0_r. by destruct (boxer.sampleFrom clock k cs2 last st) as [[??]?].
  - destruct (boxer.sampleCommand clock k c last st) as [[o last0] st0].
    rewrite IH.
    destruct (boxer.sampleFrom clock (S k) cs1 last0 st0) as [[os1 last1] st1].
    replace (k + S (length cs1))%nat with (S k + length cs1)%nat by lia.
    by destruct (boxer.sampleFrom clock _ cs2 last1 st1) as [[??]?].
Qed.

(** One wrapped command: the sample is that of the command itself, and the
    log receives the call that the outcome records. *)
Lemma traced_sampleCommand clock k c last w log :
  boxer.sampleCommand (calls.clockOf clock) k (calls.command clock k c) last (w, log) =
  let '(o, last', w') := boxer.sampleCommand clock k c last w in
  (o, last', (w', log ++ calls.recorded k o)).
Proof.
  unfold boxer.sampleCommand, calls.clockOf. cbn [fst].
  change (boxer.stepIndex (clock w) (calls.command clock k c))
    with (boxer.stepIndex (clock w) c).
  change (boxer.stepsPerInterval (calls.command clock k c))
    with (boxer.stepsPerInterval c).
  destruct (match last !! k with
            | Some l => negb (boxer.stepIndex (clock w) c =? l)
            | None => true
            end).
  - cbn [boxer.Handler_ calls.command].
    by destruct (boxer.Handler_ c _ _ w) as [r w'].
  - cbn [calls.recorded]. by rewrite app_nil_r.
Qed.

Lemma traced_sampleFrom clock cs : forall k last w log,
  boxer.sampleFrom (calls.clockOf clock) k (calls.commandsFrom clock k cs) last (w, log) =
  let '(os, last', w') := boxer.sampleFrom clock k cs last w in
  (os, last', (w', log ++ calls.recordedFrom k os)).
Proof.
  induction cs as [|c cs IH]; intros k last w log;
    cbn [calls.commandsFrom boxer.sampleFrom calls.recordedFrom].
  - by rewrite app_nil_r.
  - rewrite traced_sampleCommand.
    destruct (boxer.sampleCommand clock k c last w) as [[o last0] w0].
    rewrite IH.
    destruct (boxer.sampleFrom clock (S k) cs last0 w0) as [[os last1] w1].
    cbn [calls.recordedFrom]. by rewrite app_assoc.
Qed.

(** A sample of the wrapped ticker is the sample of the ticker, with the
    calls its outcomes record written to the log. *)
Lemma traced_Tick t w log :
  boxer.Tick (calls.ticker t) (w, log) =
  let '(os, t', w') := boxer.Tick t w in
  (os, calls.ticker t', (w', log ++ calls.recordedFrom O os)).
Proof.
  unfold boxer.Tick. cbn [calls.ticker boxer.Commands boxer.NowFunc
                          boxer.lastObservedStepIndex].
  rewrite traced_sampleFrom.
  by destruct (boxer.sampleFrom _ _ _ _ w) as [[os last'] w'].
Qed.

Lemma recordedFrom_app (os1 os2 : list boxer.Outcome) : forall k,
  calls.recordedFrom k (os1 ++ os2)
  = calls.recordedFrom k os1 ++ calls.recordedFrom (k + length os1) os2.
Proof.
  induction os1 as [|o os1 IH]; intros k; simpl.
  - by rewrite Nat.add_0_r.
  - rewrite IH, app_assoc. do 2 f_equal. lia.
Qed.

Lemma made_app k (l1 l2 : list calls.Call) :
  calls.made k (l1 ++ l2) = calls.made k l1 ++ calls.made k l2.
Proof. unfold calls.made. apply filter_app. Qed.

Lemma made_recorded k j o :
  calls.made k (calls.recorded j o) = if decide (j = k) then calls.recorded j o else [].
Proof.
  unfold calls.made. destruct o as [now idx|now idx i n r]; simpl.
  - by destruct (decide (j = k)).
  - rewrite filter_cons. simpl. by destruct (decide (j = k)).
Qed.

(** Among the calls that outcomes record, those of one command are the
    call that its own outcome records. *)
Lemma made_recordedFrom (os : list boxer.Outcome) : forall k0 j,
  calls.made (k0 + j) (calls.recordedFrom k0 os)
  = match os !! j with
    | Some o => calls.recorded (k0 + j) o
    | None => []
    end.
Proof.
  induction os as [|o os IH]; intros k0 j; [done|].
  cbn [calls.recordedFrom]. rewrite made_app, made_recorded.
  destruct j as [|j].
  - rewrite Nat.add_0_r. rewrite decide_True by done.
    replace (calls.made k0 (calls.recordedFrom (S k0) os)) with (@nil calls.Call).
    { by rewrite app_nil_r. }
    symmetry. clear IH. generalize (S k0), (Nat.lt_succ_diag_r k0).
    induction os as [|o' os IH]; intros k1 Hk1; [done|].
    cbn [calls.recordedFrom]. rewrite made_app, made_recorded.
    rewrite decide_False by lia. rewrite IH by lia. done.
  - rewrite decide_False by lia.
    replace (k0 + S j)%nat with (S k0 + j)%nat by lia.
    rewrite IH. done.
Qed.

Lemma made_recordedFrom0 (os : list boxer.Outcome) k :
  calls.made k (calls.recordedFrom O os)
  = match os !! k with
    | Some o => calls.recorded k o
    | None => []
    end.
Proof. apply (made_recordedFrom os O k). Qed.

Lemma madeAt_app k c v (l1 l2 : list calls.Call) :
  calls.madeAt k c v (l1 ++ l2) = calls.madeAt k c v l1 ++ calls.madeAt k c v l2.
Proof. unfold calls.madeAt. apply filter_app. Qed.

(** The sample of a ticker, seen from the command at position [k]: the
    commands before it, the command itself, the commands after it. *)
Lemma Tick_at t w k c :
  boxer.Commands t !! k = Some c ->
  let before := boxer.Tick (boxer.firstCommands k t) w in
  let step :=
    boxer.sampleCommand (boxer.NowFunc t) k c
      (boxer.lastObservedStepIndex before.1.2) before.2 in
  boxer.lastObservedStepIndex before.1.2 !! k = boxer.lastObservedStepIndex t !! k /\
  length before.1.1 = k /\
  boxer.Tick (boxer.firstCommands (S k) t) w
  = (before.1.1 ++ [step.1.1],
     {| boxer.Commands := take (S k) (boxer.Commands t);
        boxer.NowFunc := boxer.NowFunc t;
        boxer.lastObservedStepIndex := step.1.2 |},
     step.2) /\
  (boxer.Tick t w).1.1 !! k = Some step.1.1 /\
  boxer.lastObservedStepIndex (boxer.Tick t w).1.2 !! k = step.1.2 !! k.
Proof.
  intros Hc. cbv zeta. unfold boxer.Tick, boxer.firstCommands.
  cbn [boxer.Commands boxer.NowFunc boxer.lastObservedStepIndex].
  pose proof (take_drop_middle _ _ _ Hc) as Hsplit.
  assert (Hlen : length (take k (boxer.Commands t)) = k).
  { apply length_take_le. apply lookup_lt_Some in Hc. lia. }
  rewrite (take_S_r _ _ _ Hc).
  remember (take k (boxer.Commands t)) as pre eqn:Hpre.
  remember (drop (S k) (boxer.Commands t)) as post eqn:Hpost.
  rewrite <- Hsplit. clear Hsplit Hpre Hpost.
  rewrite !sampleFrom_app. rewrite Hlen. cbn [Nat.add].
  destruct (boxer.sampleFrom (boxer.NowFunc t) 0 pre
              (boxer.lastObservedStepIndex t) w) as [[os1 last1] w1] eqn:H1.
  cbn [fst snd boxer.lastObservedStepIndex].
  pose proof (sampleFrom_inv _ _ _ _ _ _ _ _ H1) as (Hl1 & Hout1 & _).
  rewrite Hlen in Hl1, Hout1.
  cbn [boxer.sampleFrom].
  destruct (boxer.sampleCommand (boxer.NowFunc t) k c last1 w1)
    as [[o last2] w2] eqn:H2.
  cbn [boxer.sampleFrom fst snd].
  destruct (boxer.sampleFrom (boxer.NowFunc t) (S k) post last2 w2)
    as [[os3 last3] w3] eqn:H3.
  cbn [fst snd boxer.lastObservedStepIndex].
  pose proof (sampleFrom_inv _ _ _ _ _ _ _ _ H3) as (_ & Hout3 & _).
  split; [apply Hout1; lia|]. split; [exact Hl1|]. split; [reflexivity|].
  split.
  - rewrite lookup_app_r by lia. rewrite Hl1, Nat.sub_diag. reflexivity.
  - apply Hout3. lia.
Qed.

Lemma sampleCommand_cross clock k c last w :
  last !! k <> Some (boxer.stepIndex (clock w) c) ->
  let idx := boxer.stepIndex (clock w) c in
  let n := boxer.Interval c / boxer.Step c in
  boxer.sampleCommand clock k c last w
  = (boxer.Fired (clock w) idx (idx mod n) n (boxer.Handler_ c (idx mod n) n w).1,
     <[k := idx]> last, (boxer.Handler_ c (idx mod n) n w).2).
Proof.
  intros Hne. unfold boxer.sampleCommand, boxer.stepsPerInterval. cbv zeta.
  destruct (last !! k) as [l|] eqn:Hl.
  - destruct (Z.eqb_spec (boxer.stepIndex (clock w) c) l) as [He|_].
    { exfalso. apply Hne. by rewrite He. }
    simpl. by destruct (boxer.Handler_ c _ _ w).
  - by destruct (boxer.Handler_ c _ _ w).
Qed.

Lemma sampleCommand_skip clock k c last w :
  last !! k = Some (boxer.stepIndex (clock w) c) ->
  boxer.sampleCommand clock k c last w
  = (boxer.Skipped (clock w) (boxer.stepIndex (clock w) c), last, w).
Proof.
  intros He. unfold boxer.sampleCommand. rewrite He, Z.eqb_refl. reflexivity.
Qed.

Lemma take_commandsFrom clock cs : forall k k0,
  take k (calls.commandsFrom clock k0 cs) = calls.commandsFrom clock k0 (take k cs).
Proof.
  induction cs as [|c cs IH]; intros [|k] k0; simpl; try done. by rewrite IH.
Qed.

Lemma firstCommands_traced k t :
  boxer.firstCommands k (calls.ticker t) = calls.ticker (boxer.firstCommands k t).
Proof.
  unfold boxer.firstCommands, calls.ticker.
  cbn [boxer.Commands boxer.NowFunc boxer.lastObservedStepIndex].
  by rewrite take_commandsFrom.
Qed.

Lemma firstCommands_all t w :
  boxer.Tick (boxer.firstCommands (length (boxer.Commands t)) t) w
  = boxer.Tick t w.
Proof.
  destruct t as [cs clock last]. unfold boxer.firstCommands, boxer.Tick.
  cbn [boxer.Commands boxer.NowFunc boxer.lastObservedStepIndex].
  by rewrite firstn_all.
Qed.

(** A run of the wrapped ticker is the run of the ticker, with the calls
    its outcomes record written to the log. *)
Lemma traced_drive (steps : list (World -> World)) : forall t w log,
  (boxer.drive (map calls.lift steps) (calls.ticker t) (w, log)).2
  = ((boxer.drive steps t w).2,
     log ++ calls.recordedRun (boxer.drive steps t w).1).
Proof.
  induction steps as [|f steps IH]; intros t w log; simpl.
  - by rewrite app_nil_r.
  - unfold calls.lift at 1. cbn [fst snd]. rewrite traced_Tick.
    destruct (boxer.Tick t (f w)) as [[os t1] w1].
    specialize (IH t1 w1 (log ++ calls.recordedFrom O os)).
    destruct (boxer.drive (map calls.lift steps) (calls.ticker t1) _) as [rest1 st1].
    destruct (boxer.drive steps t1 w1) as [rest w2].
    cbn [fst snd calls.recordedRun] in *. rewrite IH. by rewrite app_assoc.
Qed.

Lemma made_recordedRun k (run : list (list boxer.Outcome * Ticker)) :
  calls.made k (calls.recordedRun run)
  = calls.recordedBy k (boxer.outcomesOf k run).
Proof.
  induction run as [|[os t'] run IH]; [done|].
  cbn [calls.recordedRun fst]. rewrite made_app, made_recordedFrom0, IH.
  unfold boxer.outcomesOf. cbn [omap list_omap fst].
  by destruct (os !! k).
Qed.

Lemma length_recordedBy k (obs : list boxer.Outcome) :
  length (calls.recordedBy k obs) = boxer.count boxer.isFired obs.
Proof.
  induction obs as [|o obs IH]; [done|].
  cbn [calls.recordedBy boxer.count]. rewrite length_app, IH.
  by destruct o.
Qed.

Lemma madeAt_made k c v log :
  calls.madeAt k c v log
  = filter (fun call => boxer.stepIndex (calls.reading call) c = v) (calls.made k log).
Proof.
  unfold calls.madeAt, calls.made. rewrite list_filter_filter.
  apply list_filter_iff. intros call. tauto.
Qed.

Lemma length_madeAt_recordedBy k c v (obs : list boxer.Outcome) :
  Forall (fun o => boxer.outcome_idx o = boxer.stepIndex (boxer.outcome_now o) c) obs ->
  length (filter (fun call => boxer.stepIndex (calls.reading call) c = v)
            (calls.recordedBy k obs))
  = boxer.count (boxer.firedAt v) obs.
Proof.
  induction 1 as [|o obs Ho _ IH]; [done|].
  cbn [calls.recordedBy boxer.count]. rewrite filter_app, length_app, IH.
  f_equal. unfold boxer.firedAt.
  destruct o as [now idx|now idx i n r]; [done|]. simpl in *.
  rewrite filter_cons. cbn [calls.reading]. rewrite <- Ho.
  destruct (Z.eqb_spec idx v) as [->|Hne].
  - by rewrite decide_True.
  - by rewrite decide_False.
Qed.

End CallFacts.

(** *** A measure of the clock that never decreases

    [P] holds of the worlds that occur; in them no step of the surroundings
    and no effect makes [measure] of the clock reading decrease. *)

Section Monotone.

Context {World : Type}.
Variable P : World -> Prop.
Variable clock : World -> Z.
Variable measure : Z -> Z.

Abbreviation keeps := (mono.keeps P clock measure).
Abbreviation keepsCommand := (mono.keepsCommand P clock measure).

Lemma sampleCommand_mono k c last w o last' w' :
  keepsCommand c -> P w ->
  boxer.sampleCommand clock k c last w = (o, last', w') ->
  P w' /\ measure (clock w) <= measure (clock w') /\ boxer.outcome_now o = clock w.
Proof.
  intros Hc Hw. unfold boxer.sampleCommand.
  destruct (match last !! k with
            | Some l => negb (boxer.stepIndex (clock w) c =? l)
            | None => true
            end).
  - destruct (boxer.Handler_ c _ _ w) as [r w1] eqn:Hh.
    intros [= <- <- <-].
    destruct (Hc (boxer.stepIndex (clock w) c mod boxer.stepsPerInterval c)
                (boxer.stepsPerInterval c) w Hw) as [HP Hle].
    cbv beta in HP, Hle. rewrite Hh in HP, Hle. simpl in *. auto.
  - intros [= <- <- <-]. simpl. split; [done|]. split; [lia|done].
Qed.

Lemma sampleFrom_mono cs : forall k last w os last' w',
  Forall keepsCommand cs -> P w ->
  boxer.sampleFrom clock k cs last w = (os, last', w') ->
  P w' /\ measure (clock w) <= measure (clock w') /\
  forall j o, os !! j = Some o ->
    exists wj, P wj /\ boxer.outcome_now o = clock wj /\
      measure (clock w) <= measure (clock wj) /\
      measure (clock wj) <= measure (clock w').
Proof.
  induction cs as [|c cs IH]; intros k last w os last' w' Hcs Hw; simpl.
  - intros [= <- <- <-]. split; [done|]. split; [lia|]. intros j o H. done.
  - apply Forall_cons in Hcs as [Hc Hcs].
    destruct (boxer.sampleCommand clock k c last w) as [[o0 last0] w0] eqn:H0.
    destruct (boxer.sampleFrom clock (S k) cs last0 w0) as [[os1 last1] w1] eqn:H1.
    intros [= <- <- <-].
    destruct (sampleCommand_mono _ _ _ _ _ _ _ Hc Hw H0) as (HP0 & Hle0 & Hnow0).
    destruct (IH _ _ _ _ _ _ Hcs HP0 H1) as (HP1 & Hle1 & Hin).
    split; [done|]. split; [lia|].
    intros [|j] o Ho.
    + assert (o = o0) as -> by (by inversion Ho).
      exists w. split; [done|]. split; [done|]. lia.
    + change ((o0 :: os1) !! S j) with (os1 !! j) in Ho.
      destruct (Hin j o Ho) as (wj & HPj & Hnowj & Hlo & Hhi).
      exists wj. split; [done|]. split; [done|]. lia.
Qed.

(** Over a run the measures of the readings taken for one command never
    decrease, and each reading is taken in a world of which [P] holds. *)
Lemma drive_mono (steps : list (World -> World)) k :
  forall (t : boxer.Ticker (World := World)) w lo,
  boxer.NowFunc t = clock ->
  Forall keeps steps ->
  Forall keepsCommand (boxer.Commands t) ->
  P w -> lo <= measure (clock w) ->
  let obs := boxer.outcomesOf k (boxer.drive steps t w).1 in
  Sorted Z.le (lo :: map (fun o => measure (boxer.outcome_now o)) obs) /\
  Forall (fun o => exists wj, P wj /\ boxer.outcome_now o = clock wj) obs.
Proof.
  induction steps as [|f steps IH]; intros t w lo Hclock Hsteps Hcs Hw Hlo; simpl.
  - split; repeat constructor.
  - apply Forall_cons in Hsteps as [Hf Hsteps].
    destruct (Hf w Hw) as [HPf Hlef].
    destruct (boxer.Tick t (f w)) as [[os t1] w1] eqn:HT.
    pose proof HT as HT'. apply Tick_inv in HT' as (Hcs1 & Hclock1 & _).
    unfold boxer.Tick in HT.
    destruct (boxer.sampleFrom _ _ _ _ _) as [[os' last1] w1'] eqn:HS.
    injection HT as <- <- <-. rewrite Hclock in HS.
    destruct (sampleFrom_mono _ _ _ _ _ _ _ Hcs HPf HS) as (HP1 & Hle1 & Hin).
    set (t1 := {| boxer.Commands := boxer.Commands t;
                  boxer.NowFunc := boxer.NowFunc t;
                  boxer.lastObservedStepIndex := last1 |}) in *.
    destruct (boxer.drive steps t1 w1') as [rest w2] eqn:HD.
    unfold boxer.outcomesOf. cbn [omap list_omap fst snd].
    destruct (os' !! k) as [o|] eqn:Ho.
    + destruct (Hin k o Ho) as (wj & HPj & Hnow & Hlo1 & Hhi1).
      specialize (IH t1 w1' (measure (clock wj)) Hclock Hsteps Hcs HP1 Hhi1).
      rewrite HD in IH. cbn [fst] in IH. destruct IH as [IHs IHf].
      cbn [map]. rewrite Hnow. split.
      * constructor; [exact IHs|]. constructor. lia.
      * constructor; [by exists wj|exact IHf].
    + assert (Hlo' : lo <= measure (clock w1')) by lia.
      specialize (IH t1 w1' lo Hclock Hsteps Hcs HP1 Hlo').
      rewrite HD in IH. exact IH.
Qed.

End Monotone.

Lemma keeps_weaken {World : Type} (P : World -> Prop) (clock : World -> Z)
  (m1 m2 : Z -> Z) (f : World -> World) :
  (forall a b, m1 a <= m1 b -> m2 a <= m2 b) ->
  mono.keeps P clock m1 f -> mono.keeps P clock m2 f.
Proof. intros Hm Hf w Hw. destruct (Hf w Hw). auto. Qed.

Section TickerClaims.

Context {World : Type}.

Implicit Types (c : boxer.Command (World := World)).
Implicit Types (t : boxer.Ticker (World := World)) (w : World) (k : nat).
Implicit Types (log : list calls.Call).

(** C2. The first sample of a command (its last observed step index is
    still absent) calls its effect exactly once: in the world [wk] left by
    the sample of the commands before it, the effect is applied once, with
    [n = interval / step] and [i = stepIndex mod n] for the clock reading
    of [wk]; over the whole sample the log gains exactly that one call of
    the command, and the step index is recorded. *)
Theorem cold_start_fires t w log k c :
  boxer.Commands t !! k = Some c ->
  boxer.lastObservedStepIndex t !! k = None ->
  let before := boxer.Tick (calls.ticker (boxer.firstCommands k t)) (w, log) in
  let after := boxer.Tick (calls.ticker (boxer.firstCommands (S k) t)) (w, log) in
  let whole := boxer.Tick (calls.ticker t) (w, log) in
  let wk := before.2.1 in
  let now := boxer.NowFunc t wk in
  let n := boxer.Interval c / boxer.Step c in
  let i := boxer.stepIndex now c mod n in
  let call := {| calls.who := k; calls.pos := i; calls.steps := n;
                 calls.reading := now |} in
  after.2 = ((boxer.Handler_ c i n wk).2, before.2.2 ++ [call]) /\
  calls.made k whole.2.2 = calls.made k log ++ [call] /\
  boxer.lastObservedStepIndex whole.1.2 !! k = Some (boxer.stepIndex now c) /\
  (k = O -> before.2 = (w, log)).
Proof.
  intros Hc Hlast. cbv zeta. rewrite !traced_Tick.
  destruct (Tick_at t w k c Hc) as (Hk & Hlen & HS & Hnth & Hfinal).
  destruct (boxer.Tick (boxer.firstCommands k t) w) as [[os1 t1] w1] eqn:H1.
  cbn [fst snd] in *.
  rewrite sampleCommand_cross in HS, Hnth, Hfinal by (rewrite Hk, Hlast; done).
  cbn [fst snd] in *. rewrite HS.
  destruct (boxer.Tick t w) as [[os t'] w'] eqn:HT. cbn [fst snd] in *.
  split; [|split; [|split]].
  - rewrite recordedFrom_app, Hlen. cbn [calls.recordedFrom calls.recorded Nat.add].
    by rewrite app_nil_r, app_assoc.
  - rewrite made_app. f_equal.
    rewrite made_recordedFrom0, Hnth. reflexivity.
  - cbn [calls.ticker boxer.lastObservedStepIndex].
    rewrite Hfinal. apply lookup_insert_eq.
  - intros ->. unfold boxer.Tick, boxer.firstCommands in H1. simpl in H1.
    injection H1 as <- <- <-. cbn [calls.recordedFrom].
    by rewrite app_nil_r.
Qed.

(** C4, amended. For a command whose number of steps in an interval,
    [n = interval / step], is positive: every call of its effect that a
    sample makes is made with that [n] and with [i = stepIndex mod n] for
    the step index of the clock reading taken for the command, also for a
    reading before the epoch; so [0 <= i < n], and [i = 0] exactly when the
    step index is a multiple of [n]. *)
Theorem crossing_position t w k c (call : calls.Call) :
  boxer.Commands t !! k = Some c ->
  0 < boxer.Interval c / boxer.Step c ->
  call ∈ calls.made k (boxer.Tick (calls.ticker t) (w, [])).2.2 ->
  let idx := boxer.stepIndex (calls.reading call) c in
  calls.reading call
    = boxer.NowFunc t (boxer.Tick (calls.ticker (boxer.firstCommands k t)) (w, [])).2.1 /\
  calls.steps call = boxer.Interval c / boxer.Step c /\
  calls.pos call = idx mod calls.steps call /\
  0 <= calls.pos call < calls.steps call /\
  (calls.pos call = 0 <-> exists q, idx = q * calls.steps call).
Proof.
  intros Hc Hn. cbv zeta. rewrite !traced_Tick.
  destruct (Tick_at t w k c Hc) as (Hk & Hlen & _ & Hnth & _).
  destruct (boxer.Tick (boxer.firstCommands k t) w) as [[os1 t1] w1] eqn:H1.
  destruct (boxer.Tick t w) as [[os t'] w'] eqn:HT. cbn [fst snd] in *.
  rewrite !app_nil_l, made_recordedFrom0, Hnth.
  destruct (decide (boxer.lastObservedStepIndex t1 !! k
                    = Some (boxer.stepIndex (boxer.NowFunc t w1) c))) as [He|Hne].
  - rewrite sampleCommand_skip by done. cbn. intros H. by apply elem_of_nil in H.
  - rewrite sampleCommand_cross by done. cbn [fst calls.recorded].
    intros ->%list_elem_of_singleton. cbn [calls.reading calls.steps calls.pos].
    split; [done|]. split; [done|]. split; [done|].
    split; [apply Z.mod_pos_bound; lia|].
    split.
    + intros H0. apply Z.mod_divide in H0; [|lia]. exact H0.
    + intros [q ->]. apply Z.mod_mul. lia.
Qed.

(** C6. A sample evaluates every command by the crossing rule, whatever the
    effects of the commands before it returned: in the world [wk] left by
    the sample of the commands before the command at position [k], either
    the step index of the clock reading is the last observed one and
    nothing happens, or the effect is applied once and the log gains its
    call. After the sample the last observed step index is that step index
    whatever the effect returned, and a later sample that reads the same
    step index for the command does not call its effect again. *)
Theorem crossing_updates_last t w log k c :
  boxer.Commands t !! k = Some c ->
  let before := boxer.Tick (calls.ticker (boxer.firstCommands k t)) (w, log) in
  let after := boxer.Tick (calls.ticker (boxer.firstCommands (S k) t)) (w, log) in
  let whole := boxer.Tick (calls.ticker t) (w, log) in
  let wk := before.2.1 in
  let now := boxer.NowFunc t wk in
  let idx := boxer.stepIndex now c in
  let n := boxer.Interval c / boxer.Step c in
  let i := idx mod n in
  let call := {| calls.who := k; calls.pos := i; calls.steps := n;
                 calls.reading := now |} in
  after.2 = (if decide (boxer.lastObservedStepIndex t !! k = Some idx)
             then before.2
             else ((boxer.Handler_ c i n wk).2, before.2.2 ++ [call])) /\
  boxer.lastObservedStepIndex whole.1.2 !! k = Some idx /\
  whole.2
  = (boxer.Tick (calls.ticker (boxer.firstCommands (length (boxer.Commands t)) t))
       (w, log)).2 /\
  (forall st2,
     let again := boxer.Tick (boxer.firstCommands k whole.1.2) st2 in
     boxer.stepIndex (boxer.NowFunc t again.2.1) c = idx ->
     calls.made k (boxer.Tick whole.1.2 st2).2.2 = calls.made k st2.2).
Proof.
  intros Hc. cbv zeta. rewrite !traced_Tick.
  destruct (Tick_at t w k c Hc) as (Hk & Hlen & HS & Hnth & Hfinal).
  rewrite (firstCommands_all t w).
  destruct (boxer.Tick (boxer.firstCommands k t) w) as [[os1 t1] w1] eqn:H1.
  destruct (boxer.Tick t w) as [[os t'] w'] eqn:HT. cbn [fst snd] in *.
  assert (Hc' : boxer.Commands t' !! k = Some c).
  { unfold boxer.Tick in HT.
    destruct (boxer.sampleFrom _ _ _ _ _) as [[??]?]. by injection HT as <- <- <-. }
  assert (Hclock : boxer.NowFunc t' = boxer.NowFunc t).
  { unfold boxer.Tick in HT.
    destruct (boxer.sampleFrom _ _ _ _ _) as [[??]?]. by injection HT as <- <- <-. }
  assert (Hidx : boxer.lastObservedStepIndex t' !! k
                 = Some (boxer.stepIndex (boxer.NowFunc t w1) c)).
  { rewrite Hfinal.
    destruct (decide (boxer.lastObservedStepIndex t1 !! k
                      = Some (boxer.stepIndex (boxer.NowFunc t w1) c))) as [He|Hne].
    - by rewrite sampleCommand_skip.
    - rewrite sampleCommand_cross by done. apply lookup_insert_eq. }
  split; [|split; [|split]].
  - rewrite HS. rewrite <- Hk.
    destruct (decide (boxer.lastObservedStepIndex t1 !! k
                      = Some (boxer.stepIndex (boxer.NowFunc t w1) c))) as [He|Hne].
    + rewrite sampleCommand_skip by done. cbn [fst snd].
      rewrite recordedFrom_app. cbn [calls.recordedFrom calls.recorded].
      by rewrite !app_nil_r.
    + rewrite sampleCommand_cross by done. cbn [fst snd].
      rewrite recordedFrom_app, Hlen.
      cbn [calls.recordedFrom calls.recorded Nat.add].
      by rewrite app_nil_r, app_assoc.
  - exact Hidx.
  - reflexivity.
  - intros [w2 log2]. cbv zeta. rewrite firstCommands_traced, !traced_Tick.
    destruct (Tick_at t' w2 k c Hc') as (Hk2 & _ & _ & Hnth2 & _).
    destruct (boxer.Tick (boxer.firstCommands k t') w2) as [[os3 t3] w3] eqn:H3.
    destruct (boxer.Tick t' w2) as [[os4 t4] w4] eqn:H4. cbn [fst snd] in *.
    intros Hsame. rewrite made_app, made_recordedFrom0, Hnth2.
    rewrite sampleCommand_skip; [cbn; by rewrite app_nil_r|].
    rewrite Hk2, Hidx, Hclock. by rewrite Hsame.
Qed.



End TickerClaims.

(** C1. The test of the ticker: with a step of one minute and an interval
    of fifteen, the clock starting at 2000-01-01T00:00:00Z, one sample at
    the start and then one for each ten seconds up to and including one hour
    later, the effect is called 61 times, 5 of them with [i = 0]. *)
Theorem TestTicker_Tick_counts :
  exists log,
    boxer_test.TestTicker_Tick 362 = Some (boxer_test.Pass, log) /\
    length log = 362%nat /\
    boxer.count boxer.isFired log = 61%nat /\
    boxer.count boxer.firedFirst log = 5%nat.
Proof.
  eexists. split; [vm_compute; reflexivity|].
  vm_compute. auto.
Qed.

(** ** Colours *)

Lemma hex_char (h : ascii) :
  regexp.inClass [("0", "9"); ("a", "f"); ("A", "F")]%char h = main.isHexDigit h /\
  (main.isHexDigit h = true ->
   strconv.digitVal h = Some (main.hexValue h) /\ 0 <= main.hexValue h < 16) /\
  (main.isHexDigit h = true -> Ascii.eqb "#" h = false).
Proof.
  destruct h as [[] [] [] [] [] [] [] []]; vm_compute;
    (split; [reflexivity|]); split; intros; try discriminate;
    repeat split; try discriminate; reflexivity.
Qed.

Lemma ParseUint_hex2 (hi lo : ascii) :
  main.isHexDigit hi = true -> main.isHexDigit lo = true ->
  strconv.ParseUint (String hi (String lo EmptyString)) 16 8
  = (main.hexByte hi lo, None).
Proof.
  intros Hhi Hlo.
  destruct (hex_char hi) as (_ & Hh & _). destruct (Hh Hhi) as [Eh Bh].
  destruct (hex_char lo) as (_ & Hl & _). destruct (Hl Hlo) as [El Bl].
  unfold strconv.ParseUint, strconv.parseLoop. rewrite Eh, El.
  change (strconv.maxUint64 / 16 + 1) with 1152921504606846976.
  change (2 ^ 8 - 1) with 255.
  unfold main.hexByte.
  repeat match goal with
  | |- context [?a <=? ?b] => destruct (Z.leb_spec a b); try lia
  | |- context [?a <? ?b] => destruct (Z.ltb_spec a b); try lia
  end.
  f_equal. lia.
Qed.

Lemma uint8_hexByte (hi lo : ascii) :
  main.isHexDigit hi = true -> main.isHexDigit lo = true ->
  main.uint8 (main.hexByte hi lo) = main.hexByte hi lo.
Proof.
  intros Hhi Hlo.
  destruct (hex_char hi) as (_ & Hh & _). destruct (Hh Hhi) as [_ Bh].
  destruct (hex_char lo) as (_ & Hl & _). destruct (Hl Hlo) as [_ Bl].
  unfold main.uint8, main.hexByte. apply Z.mod_small. lia.
Qed.

(** The pattern is anchored: no match starts after the first byte. *)
Lemma colorPattern_anchored (s : string) : forall pos caps,
  regexp.findFrom main.colorPattern (S pos) s caps = None.
Proof.
  induction s as [|c s IH]; intros pos caps;
    cbn [regexp.findFrom regexp.run main.colorPattern Nat.eqb]; auto.
Qed.

Lemma FindStringSubmatch_color (s : string) :
  regexp.FindStringSubmatch main.colorPattern s
  = regexp.run main.colorPattern O s (replicate 4 EmptyString)
      (fun pos' _ caps' => Some (<[O := take_str (pos' - 0) s]> caps')).
Proof.
  unfold regexp.FindStringSubmatch.
  change (S (regexp.numSubexp main.colorPattern)) with 4%nat.
  destruct s as [|c s]; cbn [regexp.findFrom].
  - by destruct (regexp.run _ _ _ _ _).
  - rewrite colorPattern_anchored. by destruct (regexp.run _ _ _ _ _).
Qed.

Ltac hex_step :=
  match goal with
  | |- context [regexp.inClass _ ?h] =>
      rewrite (proj1 (hex_char h));
      let E := fresh "E" in
      destruct (main.isHexDigit h) eqn:E; cbn [andb forallb]
  end.

(** [ParseColor] computes the colour that the string denotes. *)
Lemma ParseColor_colorOf (s : string) :
  main.ParseColor s =
  match main.colorOf s with
  | Some c => (c, None)
  | None => (main.RGBA_zero, Some (Errorf "cannot parse color: %q" [Val (VStr s)]))
  end.
Proof.
  unfold main.ParseColor. rewrite FindStringSubmatch_color.
  destruct s as [|c s]; [reflexivity|].
  unfold main.colorOf, main.stripHash.
  cbn [regexp.run main.colorPattern main.hexClass Nat.eqb].
  destruct (Ascii.eqb "#" c) eqn:Ec.
  - apply Ascii.eqb_eq in Ec. subst c.
    change (regexp.inClass _ "#") with false. cbv iota.
    destruct s as [|h1 [|h2 [|h3 [|h4 [|h5 [|h6 [|x tl]]]]]]];
      cbn [regexp.run main.colorPattern main.hexClass Nat.eqb forallb];
      repeat hex_step; try reflexivity.
    cbn -[strconv.ParseUint main.uint8 main.hexByte].
    rewrite !ParseUint_hex2, !uint8_hexByte by assumption. reflexivity.
  - destruct s as [|h2 [|h3 [|h4 [|h5 [|h6 [|x tl]]]]]];
      cbn [regexp.run main.colorPattern main.hexClass Nat.eqb forallb];
      repeat hex_step; try reflexivity.
    cbn -[strconv.ParseUint main.uint8 main.hexByte].
    rewrite !ParseUint_hex2, !uint8_hexByte by assumption. reflexivity.
Qed.

Lemma colorOf_sound (s : string) (h1 h2 h3 h4 h5 h6 : ascii) :
  main.colorSyntax s h1 h2 h3 h4 h5 h6 ->
  main.colorOf s =
  Some {| main.R := main.hexByte h1 h2; main.G := main.hexByte h3 h4;
          main.B := main.hexByte h5 h6; main.A := 255 |}.
Proof.
  intros [Hs Hall].
  repeat (apply Forall_cons in Hall as [? Hall]).
  unfold main.colorOf.
  assert (main.stripHash s = main.six h1 h2 h3 h4 h5 h6) as ->.
  { destruct Hs as [-> | ->]; [|reflexivity].
    unfold main.six, main.stripHash.
    by rewrite (proj2 (proj2 (hex_char h1))). }
  unfold main.six. cbn [forallb].
  repeat match goal with H : main.isHexDigit _ = true |- _ => rewrite H; clear H end.
  reflexivity.
Qed.

Lemma colorOf_complete (s : string) (c : main.RGBA) :
  main.colorOf s = Some c ->
  exists h1 h2 h3 h4 h5 h6, main.colorSyntax s h1 h2 h3 h4 h5 h6.
Proof.
  unfold main.colorOf.
  destruct (main.stripHash s)
    as [|h1 [|h2 [|h3 [|h4 [|h5 [|h6 [|x tl]]]]]]] eqn:Hs; try discriminate.
  destruct (forallb _ _) eqn:Hall; [|discriminate]. intros _.
  exists h1, h2, h3, h4, h5, h6. split.
  - unfold main.stripHash in Hs. destruct s as [|c0 s]; [discriminate|].
    destruct (Ascii.eqb "#" c0) eqn:Ec.
    + apply Ascii.eqb_eq in Ec. subst. by right.
    + left. exact Hs.
  - cbn [forallb] in Hall.
    repeat (apply andb_true_iff in Hall as [? Hall]).
    repeat constructor; assumption.
Qed.

(** C9. [ParseColor] succeeds exactly on an optional [#] followed by six
    hexadecimal digits; it then returns the three bytes the pairs of digits
    write, with an alpha of 255; on every other string it returns the zero
    colour and an error. *)
Theorem ParseColor_spec (s : string) :
  ((main.ParseColor s).2 = None <->
     exists h1 h2 h3 h4 h5 h6, main.colorSyntax s h1 h2 h3 h4 h5 h6) /\
  (forall h1 h2 h3 h4 h5 h6, main.colorSyntax s h1 h2 h3 h4 h5 h6 ->
     main.ParseColor s =
     ({| main.R := main.hexByte h1 h2; main.G := main.hexByte h3 h4;
         main.B := main.hexByte h5 h6; main.A := 255 |}, None)) /\
  ((~ exists h1 h2 h3 h4 h5 h6, main.colorSyntax s h1 h2 h3 h4 h5 h6) ->
     main.ParseColor s =
     (main.RGBA_zero, Some (Errorf "cannot parse color: %q" [Val (VStr s)]))).
Proof.
  rewrite ParseColor_colorOf.
  split; [split|split].
  - destruct (main.colorOf s) as [c|] eqn:Hc; [|discriminate].
    intros _. by eapply colorOf_complete.
  - intros (h1 & h2 & h3 & h4 & h5 & h6 & H).
    by rewrite (colorOf_sound _ _ _ _ _ _ _ H).
  - intros h1 h2 h3 h4 h5 h6 H. by rewrite (colorOf_sound _ _ _ _ _ _ _ H).
  - intros Hn. destruct (main.colorOf s) as [c|] eqn:Hc; [|reflexivity].
    destruct Hn. by eapply colorOf_complete.
Qed.

(** [ParseColor] at the default foreground and at a colour cut short. *)
Lemma ParseColor_spec_witness :
  main.ParseColor "#9AC97C" =
    ({| main.R := 154; main.G := 201; main.B := 124; main.A := 255 |}, None) /\
  main.ParseColor "#9AC97" =
    (main.RGBA_zero, Some (Errorf "cannot parse color: %q" [Val (VStr "#9AC97")])).
Proof.
  split.
  - apply (proj1 (proj2 (ParseColor_spec "#9AC97C")) "9" "A" "C" "9" "7" "C")%char.
    split; [right; reflexivity|].
    repeat constructor.
  - apply (proj2 (proj2 (ParseColor_spec "#9AC97"))).
    intros (h1 & h2 & h3 & h4 & h5 & h6 & [[H|H] Hall]); [|discriminate H].
    injection H as <- _ _ _ _ _.
    apply Forall_cons in Hall as [Hh _]. vm_compute in Hh. discriminate Hh.
Defined.

(** ** Formatted integers *)

Lemma str_app_cons (c : ascii) (s t : string) :
  String c s +:+ t = String c (s +:+ t).
Proof. reflexivity. Qed.

Lemma str_app_nil_l (t : string) : EmptyString +:+ t = t.
Proof. reflexivity. Qed.

Lemma str_app_nil_r (s : string) : s +:+ EmptyString = s.
Proof. induction s as [|c s IH]; [done|]. by rewrite str_app_cons, IH. Qed.

Lemma str_app_assoc (s t u : string) : (s +:+ t) +:+ u = s +:+ (t +:+ u).
Proof.
  induction s as [|c s IH]; [done|]. by rewrite !str_app_cons, IH.
Qed.

Lemma str_length_app (s t : string) :
  String.length (s +:+ t) = (String.length s + String.length t)%nat.
Proof.
  induction s as [|c s IH]; [done|]. rewrite str_app_cons. simpl. by rewrite IH.
Qed.

Lemma length_repeatChar (c : ascii) (n : nat) :
  String.length (fmt.repeatChar c n) = n.
Proof. induction n as [|n IH]; simpl; congruence. Qed.

Lemma allChars_app (p : ascii -> bool) (s t : string) :
  readback.allChars p (s +:+ t) = readback.allChars p s && readback.allChars p t.
Proof.
  induction s as [|c s IH]; [done|].
  rewrite str_app_cons. simpl. by rewrite IH, andb_assoc.
Qed.

Lemma allChars_repeatChar (p : ascii -> bool) (c : ascii) (n : nat) :
  p c = true -> readback.allChars p (fmt.repeatChar c n) = true.
Proof. intros Hc. induction n as [|n IH]; simpl; [done|]. by rewrite Hc, IH. Qed.

Lemma decAcc_app (s t : string) : forall n,
  readback.decAcc (s +:+ t) n = readback.decAcc t (readback.decAcc s n).
Proof.
  induction s as [|c s IH]; intros n; [done|].
  rewrite str_app_cons. simpl. apply IH.
Qed.

Lemma decAcc_zeros (k : nat) (s : string) :
  readback.decAcc (fmt.repeatChar "0" k +:+ s) 0 = readback.decAcc s 0.
Proof.
  induction k as [|k IH]; [done|].
  simpl fmt.repeatChar. rewrite str_app_cons. simpl readback.decAcc.
  exact IH.
Qed.

Lemma digitChar_spec (d : Z) :
  0 <= d < 10 ->
  byte_of (fmt.digitChar d) = 48 + d /\ fmt.isDigit (fmt.digitChar d) = true.
Proof.
  intros Hd.
  assert (d = 0 \/ d = 1 \/ d = 2 \/ d = 3 \/ d = 4 \/ d = 5 \/ d = 6 \/
          d = 7 \/ d = 8 \/ d = 9) as Hcases by lia.
  repeat (destruct Hcases as [-> | Hcases]); try subst d; by vm_compute.
Qed.

Lemma digitsGo_S (fuel : nat) (u : Z) (acc : string) :
  fmt.digitsGo (S fuel) u acc =
  if u <? 10 then String (fmt.digitChar (u mod 10)) acc
  else fmt.digitsGo fuel (u / 10) (String (fmt.digitChar (u mod 10)) acc).
Proof. reflexivity. Qed.

(** The digits written for [u] read back as [u], whatever stood before. *)
Lemma digitsGo_spec (fuel : nat) : forall u acc,
  0 <= u < 2 ^ Z.of_nat (S fuel) ->
  exists ds,
    fmt.digitsGo (S fuel) u acc = ds +:+ acc /\
    ds <> EmptyString /\
    readback.allChars fmt.isDigit ds = true /\
    forall n, readback.decAcc ds n = n * 10 ^ Z.of_nat (String.length ds) + u.
Proof.
  induction fuel as [|fuel IH]; intros u acc Hu;
    rewrite digitsGo_S; destruct (Z.ltb_spec u 10) as [Hlt|Hge].
  - destruct (digitChar_spec u) as [Hb Hd]; [lia|].
    exists (String (fmt.digitChar u) EmptyString).
    rewrite Z.mod_small by lia.
    split; [done|]. split; [done|]. split; [simpl; by rewrite Hd|].
    intros n. simpl. rewrite Hb. change (Z.of_nat 1) with 1. lia.
  - exfalso. change (2 ^ Z.of_nat 1) with 2 in Hu. lia.
  - destruct (digitChar_spec u) as [Hb Hd]; [lia|].
    exists (String (fmt.digitChar u) EmptyString).
    rewrite Z.mod_small by lia.
    split; [done|]. split; [done|]. split; [simpl; by rewrite Hd|].
    intros n. simpl. rewrite Hb. change (Z.of_nat 1) with 1. lia.
  - destruct (digitChar_spec (u mod 10)) as [Hb Hd].
    { apply Z.mod_pos_bound. lia. }
    destruct (IH (u / 10) (String (fmt.digitChar (u mod 10)) acc))
      as (ds & Heq & Hne & Hall & Hval).
    { split; [apply Z.div_pos; lia|].
      apply Z.div_lt_upper_bound; [lia|].
      rewrite (Nat2Z.inj_succ (S fuel)), Z.pow_succ_r in Hu by lia. lia. }
    exists (ds +:+ String (fmt.digitChar (u mod 10)) EmptyString).
    split; [by rewrite Heq, str_app_assoc|].
    split; [by destruct ds|].
    split; [rewrite allChars_app, Hall; simpl; by rewrite Hd|].
    intros n. rewrite decAcc_app, Hval. simpl readback.decAcc. rewrite Hb.
    rewrite str_length_app. simpl String.length.
    rewrite Nat2Z.inj_add, Z.pow_add_r by lia.
    change (10 ^ Z.of_nat 1) with 10.
    pose proof (Z.div_mod u 10). lia.
Qed.

Lemma digits_spec (u : Z) :
  0 <= u ->
  fmt.digits u <> EmptyString /\
  readback.allChars fmt.isDigit (fmt.digits u) = true /\
  readback.decAcc (fmt.digits u) 0 = u.
Proof.
  intros Hu. unfold fmt.digits.
  destruct (digitsGo_spec (Z.to_nat (Z.log2 u)) u EmptyString)
    as (ds & Heq & Hne & Hall & Hval).
  { split; [done|]. rewrite Nat2Z.inj_succ, Z2Nat.id by apply Z.log2_nonneg.
    destruct (Z.eq_dec u 0) as [->|]; [done|].
    apply Z.log2_spec. lia. }
  rewrite Heq, str_app_nil_r. split; [done|]. split; [done|].
  rewrite Hval. lia.
Qed.

(** With the [0] flag the result is the sign, zeros and the digits: no
    padding with spaces is left to do. *)
Lemma fmtInteger_zero (width : nat) (z : Z) :
  fmt.fmtInteger true width z =
  (if z <? 0 then "-" else "") +:+
  fmt.repeatChar "0"
    ((if z <? 0 then width - 1 else width) - String.length (fmt.digits (Z.abs z)))
  +:+ fmt.digits (Z.abs z).
Proof.
  unfold fmt.fmtInteger, fmt.padLeft.
  set (ds := fmt.digits (Z.abs z)).
  set (body := fmt.repeatChar "0" _ +:+ ds).
  assert (Hlen : (width <= String.length ((if (z <? 0)%Z then "-" else "") +:+ body))%nat).
  { unfold body. rewrite !str_length_app, length_repeatChar.
    destruct (z <? 0); simpl; lia. }
  replace (width - _)%nat with O by lia. reflexivity.
Qed.

Lemma fmtInteger_numeric (width : nat) (z : Z) :
  readback.allChars readback.numeric (fmt.fmtInteger true width z) = true.
Proof.
  rewrite fmtInteger_zero.
  destruct (digits_spec (Z.abs z)) as (_ & Hall & _); [lia|].
  assert (Hd : readback.allChars readback.numeric (fmt.digits (Z.abs z)) = true).
  { revert Hall. generalize (fmt.digits (Z.abs z)).
    induction s as [|c s IH]; simpl; [done|].
    intros [Hc Hs]%andb_true_iff. unfold readback.numeric at 1.
    by rewrite Hc, orb_true_r, IH. }
  rewrite !allChars_app, Hd, allChars_repeatChar by done.
  by destruct (z <? 0).
Qed.

Lemma readInt_fmtInteger (width : nat) (z : Z) :
  readback.readInt (fmt.fmtInteger true width z) = z.
Proof.
  rewrite fmtInteger_zero.
  destruct (digits_spec (Z.abs z)) as (Hne & Hall & Hval); [lia|].
  destruct (Z.ltb_spec z 0) as [Hneg|Hpos].
  - rewrite str_app_cons, str_app_nil_l. unfold readback.readInt.
    change (Ascii.eqb "-" "-") with true. cbv iota.
    rewrite decAcc_zeros, Hval. lia.
  - rewrite str_app_nil_l.
    assert (Hfirst : forall s, s <> EmptyString ->
              readback.allChars fmt.isDigit s = true ->
              readback.readInt s = readback.decAcc s 0).
    { intros [|c s] Hs Ha; [done|]. simpl in Ha.
      apply andb_true_iff in Ha as [Hc _]. unfold readback.readInt.
      destruct (Ascii.eqb_spec c "-") as [->|]; [by vm_compute in Hc|done]. }
    rewrite Hfirst.
    + rewrite decAcc_zeros, Hval. lia.
    + destruct (_ - _)%nat; [by rewrite str_app_nil_l|done].
    + by rewrite allChars_app, allChars_repeatChar, Hall.
Qed.

Lemma fmtInteger_inj (width : nat) (z z' : Z) :
  fmt.fmtInteger true width z = fmt.fmtInteger true width z' -> z = z'.
Proof.
  intros H. apply (f_equal readback.readInt) in H.
  by rewrite !readInt_fmtInteger in H.
Qed.

(** Two strings cut at a byte that neither holds before the cut. *)
Lemma split_at (p : ascii -> bool) (c : ascii) :
  p c = false ->
  forall x x' r r',
    readback.allChars p x = true -> readback.allChars p x' = true ->
    x +:+ String c r = x' +:+ String c r' ->
    x = x' /\ r = r'.
Proof.
  intros Hc. induction x as [|a x IH]; intros [|a' x'] r r' Hx Hx' Heq;
    rewrite ?str_app_cons, ?str_app_nil_l in Heq; simpl in Hx, Hx'.
  - by injection Heq as ->.
  - injection Heq as -> _. apply andb_true_iff in Hx' as [Ha _]. congruence.
  - injection Heq as -> _. apply andb_true_iff in Hx as [Ha _]. congruence.
  - injection Heq as -> Heq.
    apply andb_true_iff in Hx as [_ Hx]. apply andb_true_iff in Hx' as [_ Hx'].
    destruct (IH x' r r' Hx Hx' Heq) as [-> ->]. done.
Qed.

Lemma wallpaperName_eq (w h i n : Z) :
  boxer.wallpaperName w h i n =
  "wallpaper_" +:+
  (fmt.fmtInteger true 4 w +:+ String "_"
    (fmt.fmtInteger true 4 h +:+ String "_"
      (fmt.fmtInteger true 2 i +:+ String "_"
        (fmt.fmtInteger true 2 n +:+ String "." "png")))).
Proof. reflexivity. Qed.

(** The file name of a wallpaper determines the width, the height, the
    position and the number of steps written into it. *)
Lemma wallpaperName_inj (w h i n w' h' i' n' : Z) :
  boxer.wallpaperName w h i n = boxer.wallpaperName w' h' i' n' ->
  w = w' /\ h = h' /\ i = i' /\ n = n'.
Proof.
  rewrite !wallpaperName_eq. intros H.
  apply (inj (String.app "wallpaper_")) in H.
  apply (split_at readback.numeric "_" eq_refl) in H as [Hw H];
    [|apply fmtInteger_numeric..].
  apply (split_at readback.numeric "_" eq_refl) in H as [Hh H];
    [|apply fmtInteger_numeric..].
  apply (split_at readback.numeric "_" eq_refl) in H as [Hi H];
    [|apply fmtInteger_numeric..].
  apply (split_at readback.numeric "." eq_refl) in H as [Hn _];
    [|apply fmtInteger_numeric..].
  apply fmtInteger_inj in Hw, Hh, Hi, Hn. done.
Qed.

(** ** The handlers *)

Lemma darkMode_script (b : bool) :
  fmt.Sprintf (strings.TrimSpace boxer.setDarkModeScript) [VBool b]
  = trace.darkModeText b.
Proof. destruct b; vm_compute; reflexivity. Qed.

Lemma flash_script : strings.TrimSpace boxer.flashDarkModeScript = trace.flashText.
Proof. vm_compute. reflexivity. Qed.

(** C8. The menu bar handler makes one call of the executor: for [i = 0]
    with the flash script, for [i > 0] with the script that sets dark mode,
    to true when [i] is odd and to false when it is even; it returns an
    error exactly when that call does. *)
Theorem NewMenuBarHandler_spec {World : Type}
  (exec : boxer.CommandExecutor (World := World)) (i n : Z) (w : World)
  (log : list trace.Event) :
  let out := boxer.NewMenuBarHandler (trace.exec exec) i n (w, log) in
  let script := if i =? 0 then trace.flashText
                else trace.darkModeText (Z.rem i 2 =? 1) in
  let call := exec boxer.OSAScriptPath [] script w in
  out.2 = (call.2, log ++ [trace.Exec boxer.OSAScriptPath [] script]) /\
  (is_Some out.1 <-> is_Some call.1.2) /\
  (0 < i -> (Z.rem i 2 =? 1) = Z.odd i).
Proof.
  unfold boxer.NewMenuBarHandler, trace.exec. cbv zeta.
  rewrite darkMode_script, flash_script.
  split; [|split].
  - destruct (i =? 0);
      destruct (exec _ _ _ w) as [[b [e|]] w']; reflexivity.
  - destruct (i =? 0);
      destruct (exec _ _ _ w) as [[b [e|]] w']; simpl;
      split; intros [x H]; try discriminate H; eauto.
  - intros Hi. rewrite Z.rem_mod_nonneg by lia.
    rewrite <- Z.bit0_odd, Z.bit0_eqb. reflexivity.
Qed.

Lemma NewMenuBarHandler_spec_witness :
  (Z.rem 3 2 =? 1) = Z.odd 3.
Proof.
  apply (proj2 (proj2 (NewMenuBarHandler_spec
           (fun _ _ _ (w : unit) => (EmptyString, None, w)) 3 15 tt []))).
  lia.
Defined.

Lemma setWallpaper_script (imgpath : string) :
  fmt.Sprintf (strings.TrimSpace boxer.setWallpaperScript) [VStr imgpath]
  = trace.wallpaperText imgpath.
Proof. reflexivity. Qed.

(** C10. After the desktop size is known, the wallpaper handler calls the
    generator exactly when [os.Stat] reports that no file exists at the path
    made of the width, the height, [i] and [n], which the file name
    determines; otherwise the generator is not called and the script sets
    the file at that path as the wallpaper. *)
Theorem NewWallpaperHandler_cache {World : Type}
  (os_Stat : string -> World -> option os.PathError)
  (exec0 : boxer.CommandExecutor (World := World))
  (sizer : boxer.DesktopSizer (World := World * list trace.Event))
  (gen0 : boxer.WallpaperGenerator (World := World))
  (path : string) (i n : Z) (st : World * list trace.Event) :
  let exec := trace.exec exec0 in
  let handler :=
    boxer.NewWallpaperHandler (trace.stat os_Stat) exec sizer
      (trace.generator gen0) path in
  (let '((w, h, serr), (world1, log1)) := sizer exec st in
   let imgpath := filepath.Join [path; boxer.wallpaperName w h i n] in
   let generate := trace.Generate imgpath w h {| boxer.num := i; boxer.den := n |} in
   let setWallpaper :=
     trace.Exec boxer.OSAScriptPath [] (trace.wallpaperText imgpath) in
   let log' := (handler i n st).2.2 in
   match serr with
   | Some e =>
       handler i n st = (Some (Errorf "desktop size: %s" [Err e]), (world1, log1))
   | None =>
       if os.IsNotExist (os_Stat imgpath world1) then
         match (gen0 imgpath w h {| boxer.num := i; boxer.den := n |} world1).1 with
         | Some e =>
             log' = log1 ++ [generate] /\
             (handler i n st).1 = Some (Errorf "generate wallpaper: %s" [Err e])
         | None => log' = log1 ++ [generate; setWallpaper]
         end
       else log' = log1 ++ [setWallpaper]
   end) /\
  (forall w h w' h' i' n',
     boxer.wallpaperName w h i n = boxer.wallpaperName w' h' i' n' ->
     w = w' /\ h = h' /\ i = i' /\ n = n').
Proof.
  split; [|intros; by apply wallpaperName_inj].
  unfold boxer.NewWallpaperHandler.
  destruct (sizer (trace.exec exec0) st) as [[[w h] [e|]] [world1 log1]];
    [reflexivity|].
  cbv zeta. rewrite setWallpaper_script.
  generalize (filepath.Join [path; boxer.wallpaperName w h i n]).
  intros imgpath.
  generalize (trace.wallpaperText imgpath). intros script.
  unfold trace.stat, trace.generator, trace.exec.
  destruct (os.IsNotExist _).
  - destruct (gen0 imgpath w h _ world1) as [[e|] world2]; cbn [fst snd];
      [done|].
    destruct (exec0 _ _ _ world2) as [[b [e|]] world3]; cbn [fst snd];
      by rewrite <- app_assoc.
  - destruct (exec0 _ _ _ world1) as [[b [e|]] world3]; reflexivity.
Qed.

(** ** Building the ticker from the configuration *)

(** C5, amended. [NewTicker] checks neither the step nor the interval: it
    fails exactly when the wallpaper is enabled and one of its two colours
    does not parse. On success the ticker holds no sample and its commands
    are the wallpaper command with the configured step and interval when
    the wallpaper is enabled, and none otherwise. *)
Theorem NewTicker_spec {World : Type}
  (time_Now : World -> Z)
  (os_Stat : string -> World -> option os.PathError)
  (NewWallpaperGenerator : main.RGBA -> main.RGBA -> boxer.WallpaperGenerator)
  (c : main.Config) (exec : boxer.CommandExecutor) :
  let wp := main.Wallpaper c in
  let out := main.NewTicker time_Now os_Stat NewWallpaperGenerator c exec in
  (out.2 = None <->
     (main.Enabled wp = true ->
        (main.ParseColor (main.Foreground wp)).2 = None /\
        (main.ParseColor (main.Background wp)).2 = None)) /\
  (out.2 = None ->
     exists t, out.1 = Some t /\
       boxer.NowFunc t = time_Now /\
       boxer.lastObservedStepIndex t = ∅ /\
       odd_config.durations t =
         if main.Enabled wp
         then [("wallpaper", main.Duration_ (main.Step wp),
                main.Duration_ (main.Interval wp))]
         else []) /\
  (out.2 <> None -> out.1 = None).
Proof.
  unfold main.NewTicker. cbv zeta.
  destruct (main.Enabled (main.Wallpaper c)).
  - destruct (main.ParseColor (main.Foreground _)) as [fg [e1|]]; simpl.
    { split; [|split]; [split| |]; try done. intros H. by destruct (H eq_refl). }
    destruct (main.ParseColor (main.Background _)) as [bg [e2|]]; simpl.
    { split; [|split]; [split| |]; try done. intros H. by destruct (H eq_refl). }
    split; [|split]; [split| |]; try done.
    intros _. eexists. split; [reflexivity|]. done.
  - simpl. split; [|split]; [split| |]; try done.
    intros _. eexists. split; [reflexivity|]. done.
Qed.

Lemma NewTicker_spec_witness :
  exists t, odd_config.ticker.1 = Some t /\
    odd_config.durations t = [("wallpaper", 7 * time.Second, 15 * time.Second)].
Proof.
  destruct (NewTicker_spec (fun w : Z => w) odd_config.os_Stat
              odd_config.NewWallpaperGenerator odd_config.config odd_config.exec)
    as (_ & H & _).
  destruct (H eq_refl) as (t & Ht & _ & _ & Hd).
  exists t. split; [exact Ht|exact Hd].
Defined.

(** A step of 7s with an interval of 15s is accepted, and the first sample
    of the ticker calls the handler of the command. *)
Lemma NewTicker_accepts_7s_15s :
  (15 * time.Second) mod (7 * time.Second) <> 0 /\
  exists t,
    odd_config.ticker = (Some t, None) /\
    odd_config.durations t = [("wallpaper", 7 * time.Second, 15 * time.Second)] /\
    boxer.count boxer.isFired (boxer.Tick t 0).1.1 = 1%nat.
Proof.
  split; [by vm_compute|].
  eexists. split; [reflexivity|]. split; by vm_compute.
Qed.

(** ** The statements at concrete inputs *)

Lemma NewWallpaperHandler_cache_witness :
  1440 = 1440 /\ 900 = 900 /\ 3 = 3 /\ 15 = 15.
Proof.
  apply (proj2 (NewWallpaperHandler_cache odd_config.os_Stat odd_config.exec
                  boxer.DesktopSize (odd_config.NewWallpaperGenerator
                     main.RGBA_zero main.RGBA_zero)
                  "/tmp/boxer/wallpaper" 3 15 (0, []))
           1440 900 1440 900 3 15).
  reflexivity.
Defined.

(** The first sample of a fresh ticker: one call, at the epoch. *)
Lemma cold_start_fires_witness :
  calls.made O (boxer.Tick (calls.ticker scenario.single) (0, [])).2.2
  = [{| calls.who := O; calls.pos := 0; calls.steps := 15; calls.reading := 0 |}].
Proof.
  pose proof (cold_start_fires scenario.single 0 [] O
                (scenario.command scenario.quiet) eq_refl) as H.
  apply H. vm_compute. reflexivity.
Defined.

(** A clock reading one nanosecond before the epoch: step index -1,
    position 14 of 15. *)
Lemma crossing_position_witness :
  0 <= 14 < 15 /\ (14 = 0 <-> exists q, -1 = q * 15).
Proof.
  pose proof (crossing_position scenario.single (-1) O
                (scenario.command scenario.quiet)
                {| calls.who := O; calls.pos := 14; calls.steps := 15;
                   calls.reading := -1 |}) as H.
  apply H.
  - reflexivity.
  - reflexivity.
  - vm_compute. constructor.
Defined.

(** C4 as it is worded fails for a step of one minute with an interval of
    minus fifteen minutes, a command like any other for the ticker: at the
    first sample the effect is called with [i = 0] and [n = -15], and no
    [i] lies between 0 and [n]. *)
Lemma negative_interval_is_called :
  let t0 := time.Date 2000 time.January 1 0 0 0 0 in
  (boxer.Tick (calls.ticker scenario.negativeInterval) (t0, [])).2.2
  = [{| calls.who := O; calls.pos := 0; calls.steps := -15;
        calls.reading := t0 |}] /\
  ~ (0 <= 0 < -15).
Proof. split; [by vm_compute|lia]. Qed.

(** The effect of the first command fails and that of the second is called
    all the same, once each. *)
Lemma crossing_updates_last_witness :
  (boxer.Tick (calls.ticker (boxer.firstCommands 2 scenario.faulty)) (0, [])).2.2
  = [{| calls.who := O; calls.pos := 0; calls.steps := 15; calls.reading := 0 |};
     {| calls.who := 1%nat; calls.pos := 0; calls.steps := 15; calls.reading := 0 |}].
Proof.
  pose proof (crossing_updates_last scenario.faulty 0 [] 1%nat
                (scenario.command scenario.quiet) eq_refl) as (H & _).
  cbv zeta in H. rewrite H. vm_compute. reflexivity.
Defined.

Lemma firstMinute_index (w : Z) :
  scenario.firstMinute w -> w / (1 * time.Minute) = 0.
Proof. intros H. apply Z.div_small. exact H. Qed.





(** * Further properties *)

(** ** [ParseColor] *)

(** X1. Whatever the string, each channel of the colour [ParseColor]
    returns is a byte, and its alpha is 255 when there is no error and 0
    when there is one. *)
Theorem ParseColor_channels (s : string) :
  let c := (main.ParseColor s).1 in
  0 <= main.R c <= 255 /\ 0 <= main.G c <= 255 /\ 0 <= main.B c <= 255 /\
  main.A c = match (main.ParseColor s).2 with Some _ => 0 | None => 255 end.
Proof.
  rewrite ParseColor_colorOf. unfold main.colorOf.
  destruct (main.stripHash s)
    as [|h1 [|h2 [|h3 [|h4 [|h5 [|h6 [|x tl]]]]]]]; simpl; try lia.
  destruct (main.isHexDigit h1) eqn:E1; simpl; [|lia].
  destruct (main.isHexDigit h2) eqn:E2; simpl; [|lia].
  destruct (main.isHexDigit h3) eqn:E3; simpl; [|lia].
  destruct (main.isHexDigit h4) eqn:E4; simpl; [|lia].
  destruct (main.isHexDigit h5) eqn:E5; simpl; [|lia].
  destruct (main.isHexDigit h6) eqn:E6; simpl; [|lia].
  pose proof (proj2 (proj1 (proj2 (hex_char h1)) E1)).
  pose proof (proj2 (proj1 (proj2 (hex_char h2)) E2)).
  pose proof (proj2 (proj1 (proj2 (hex_char h3)) E3)).
  pose proof (proj2 (proj1 (proj2 (hex_char h4)) E4)).
  pose proof (proj2 (proj1 (proj2 (hex_char h5)) E5)).
  pose proof (proj2 (proj1 (proj2 (hex_char h6)) E6)).
  unfold main.hexByte. lia.
Qed.

(** X2. The leading [#] is optional: for a string that does not itself
    begin with [#], [ParseColor] returns the same colour with and without
    a [#] before it, and fails on both or on neither. *)
Theorem ParseColor_hash_optional (c : ascii) (s : string) :
  c <> "#"%char ->
  (main.ParseColor (String "#" (String c s))).1 = (main.ParseColor (String c s)).1 /\
  ((main.ParseColor (String "#" (String c s))).2 = None <->
   (main.ParseColor (String c s)).2 = None).
Proof.
  intros Hc. rewrite !ParseColor_colorOf.
  assert (main.colorOf (String "#" (String c s)) = main.colorOf (String c s)) as ->.
  { unfold main.colorOf, main.stripHash.
    change (Ascii.eqb "#" "#") with true. cbv iota.
    destruct (Ascii.eqb_spec "#" c) as [<-|_]; [done|reflexivity]. }
  by destruct (main.colorOf _).
Qed.

Lemma ParseColor_hash_optional_witness :
  (main.ParseColor "#9ac97c").1 = (main.ParseColor "9ac97c").1.
Proof.
  apply (ParseColor_hash_optional "9" "ac97c"). discriminate.
Defined.

Lemma lower_hex (h : ascii) :
  main.isHexDigit (lowercase.lower h) = main.isHexDigit h /\
  main.hexValue (lowercase.lower h) = main.hexValue h /\
  Ascii.eqb "#" (lowercase.lower h) = Ascii.eqb "#" h.
Proof.
  destruct h as [[] [] [] [] [] [] [] []]; vm_compute; done.
Qed.

(** X3. [ParseColor] does not distinguish the case of the hexadecimal
    letters: a string and its lower-case form give the same colour, and
    fail together. *)
Theorem ParseColor_case_insensitive (s : string) :
  (main.ParseColor (lowercase.lowerStr s)).1 = (main.ParseColor s).1 /\
  ((main.ParseColor (lowercase.lowerStr s)).2 = None <-> (main.ParseColor s).2 = None).
Proof.
  rewrite !ParseColor_colorOf.
  assert (main.colorOf (lowercase.lowerStr s) = main.colorOf s) as ->.
  { unfold main.colorOf.
    assert (Hstrip : main.stripHash (lowercase.lowerStr s)
                     = lowercase.lowerStr (main.stripHash s)).
    { destruct s as [|c s]; [done|].
      cbn [lowercase.lowerStr main.stripHash].
      rewrite (proj2 (proj2 (lower_hex c))). by destruct (Ascii.eqb "#" c). }
    rewrite Hstrip.
    destruct (main.stripHash s)
      as [|h1 [|h2 [|h3 [|h4 [|h5 [|h6 [|x tl]]]]]]]; try reflexivity.
    cbn [lowercase.lowerStr forallb]. unfold main.hexByte.
    repeat match goal with
    | |- context [main.isHexDigit (lowercase.lower ?h)] =>
        rewrite (proj1 (lower_hex h))
    | |- context [main.hexValue (lowercase.lower ?h)] =>
        rewrite (proj1 (proj2 (lower_hex h)))
    end.
    reflexivity. }
  by destruct (main.colorOf _).
Qed.

(** ** [DesktopSize] *)

Lemma run_Plus (r1 : regexp.Regexp) pos s caps k :
  regexp.run (regexp.Plus r1) pos s caps k
  = plus.loop r1 k (S (String.length s)) pos s caps.
Proof. reflexivity. Qed.

Lemma inClass_digit (c : ascii) :
  regexp.inClass [("0", "9")]%char c = fmt.isDigit c.
Proof. unfold regexp.inClass, fmt.isDigit. simpl. apply orb_false_r. Qed.

Lemma take_str_app (ds rest : string) :
  take_str (String.length ds) (ds +:+ rest) = ds.
Proof.
  induction ds as [|c ds IH].
  - by destruct rest.
  - rewrite str_app_cons. simpl. by rewrite IH.
Qed.

Lemma loop_S (r1 : regexp.Regexp) (k : regexp.Cont) fuel pos s caps :
  plus.loop r1 k (S fuel) pos s caps
  = regexp.run r1 pos s caps (fun pos' s' caps' =>
      match plus.loop r1 k fuel pos' s' caps' with
      | Some m => Some m
      | None => k pos' s' caps'
      end).
Proof. reflexivity. Qed.

Lemma run_digit_cons (K : regexp.Cont) pos c s caps :
  regexp.run boxer.digitClass pos (String c s) caps K
  = if fmt.isDigit c then K (S pos) s caps else None.
Proof. cbn [regexp.run boxer.digitClass]. by rewrite inClass_digit. Qed.

(** On digits followed by no digit, [\d+] goes on with all of them when
    what follows in the pattern matches there. *)
Lemma loop_digits (k : regexp.Cont) (m : list string) : forall ds fuel pos rest caps,
  plus.isNumber ds = true ->
  plus.noDigitAhead rest = true ->
  (String.length ds <= fuel)%nat ->
  k (pos + String.length ds)%nat rest caps = Some m ->
  plus.loop boxer.digitClass k fuel pos (ds +:+ rest) caps = Some m.
Proof.
  induction ds as [|c ds IH]; intros fuel pos rest caps Hnum Hrest Hfuel Hk;
    [discriminate|].
  destruct fuel as [|fuel]; [simpl in Hfuel; lia|].
  unfold plus.isNumber in Hnum. simpl in Hnum.
  apply andb_true_iff in Hnum as [Hc Hds].
  rewrite str_app_cons, loop_S, run_digit_cons, Hc.
  destruct ds as [|c' ds].
  - rewrite str_app_nil_l.
    assert (plus.loop boxer.digitClass k fuel (S pos) rest caps = None) as ->.
    { destruct fuel; [done|]. destruct rest as [|x rest]; [done|].
      rewrite loop_S, run_digit_cons.
      simpl in Hrest. by destruct (fmt.isDigit x). }
    simpl in Hk. by rewrite Nat.add_1_r in Hk.
  - rewrite (IH fuel (S pos) rest caps); [done| |done| |].
    + unfold plus.isNumber. by rewrite Hds.
    + simpl in *. lia.
    + simpl in *. by rewrite Nat.add_succ_r in Hk.
Qed.

Lemma run_digits (k : regexp.Cont) (m : list string) ds pos rest caps :
  plus.isNumber ds = true ->
  plus.noDigitAhead rest = true ->
  k (pos + String.length ds)%nat rest caps = Some m ->
  regexp.run (regexp.Plus boxer.digitClass) pos (ds +:+ rest) caps k = Some m.
Proof.
  intros. rewrite run_Plus. apply loop_digits; try done.
  rewrite str_length_app. lia.
Qed.

Lemma run_group_number (idx : nat) (k : regexp.Cont) (m : list string)
  ds pos rest caps :
  plus.isNumber ds = true ->
  plus.noDigitAhead rest = true ->
  k (pos + String.length ds)%nat rest (<[idx := ds]> caps) = Some m ->
  regexp.run (regexp.Group idx (regexp.Plus boxer.digitClass)) pos (ds +:+ rest) caps k
  = Some m.
Proof.
  intros Hds Hrest Hk.
  change (regexp.run (regexp.Group idx (regexp.Plus boxer.digitClass)) pos
            (ds +:+ rest) caps k)
    with (regexp.run (regexp.Plus boxer.digitClass) pos (ds +:+ rest) caps
            (fun pos' s' caps' =>
               k pos' s' (<[idx := take_str (pos' - pos) (ds +:+ rest)]> caps'))).
  apply run_digits; [done..|].
  replace (pos + String.length ds - pos)%nat with (String.length ds) by lia.
  by rewrite take_str_app.
Qed.

Lemma run_number_sep (r : regexp.Regexp) (k : regexp.Cont) (m : list string)
  ds pos rest caps :
  plus.isNumber ds = true ->
  regexp.run r (S (S (pos + String.length ds))) rest caps k = Some m ->
  regexp.run
    (regexp.Cat (regexp.Plus boxer.digitClass)
       (regexp.Cat (regexp.Cat (regexp.Lit ",") (regexp.Lit " ")) r))
    pos (ds +:+ String "," (String " " rest)) caps k
  = Some m.
Proof.
  intros Hds Hk.
  change (regexp.run (regexp.Cat (regexp.Plus boxer.digitClass) ?r2) pos ?s caps k)
    with (regexp.run (regexp.Plus boxer.digitClass) pos s caps
            (fun pos' s' caps' => regexp.run r2 pos' s' caps' k)).
  apply run_digits; [done|done|]. exact Hk.
Qed.

Lemma run_bounds (whole : string) d1 d2 d3 d4 tail :
  plus.isNumber d1 = true -> plus.isNumber d2 = true ->
  plus.isNumber d3 = true -> plus.isNumber d4 = true ->
  plus.noDigitAhead tail = true ->
  regexp.run boxer.boundsPattern O
    (d1 +:+ ", " +:+ d2 +:+ ", " +:+ d3 +:+ ", " +:+ d4 +:+ tail)
    [EmptyString; EmptyString; EmptyString]
    (fun pos' _ caps' => Some (<[O := take_str (pos' - 0) whole]> caps'))
  = Some [take_str
            (S (S (S (S (S (S (String.length d1 + String.length d2))
                       + String.length d3)) + String.length d4))) whole;
          d3; d4].
Proof.
  intros H1 H2 H3 H4 Ht.
  change (regexp.run boxer.boundsPattern O ?s ?caps ?k)
    with (regexp.run
            (regexp.Cat (regexp.Plus boxer.digitClass)
               (regexp.Cat (regexp.Cat (regexp.Lit ",") (regexp.Lit " "))
                  (regexp.Cat (regexp.Plus boxer.digitClass)
                     (regexp.Cat (regexp.Cat (regexp.Lit ",") (regexp.Lit " "))
                        (regexp.Cat (regexp.Group 1 (regexp.Plus boxer.digitClass))
                           (regexp.Cat (regexp.Cat (regexp.Lit ",") (regexp.Lit " "))
                              (regexp.Group 2 (regexp.Plus boxer.digitClass))))))))
            O s caps k).
  change (", " +:+ ?x) with (String "," (String " " x)).
  apply run_number_sep; [done|].
  apply run_number_sep; [done|].
  change (regexp.run (regexp.Cat ?a ?b) ?pos ?s ?caps ?k)
    with (regexp.run a pos s caps
            (fun pos' s' caps' => regexp.run b pos' s' caps' k)).
  apply (run_group_number 1 _ _ d3); [done|done|].
  change (regexp.run (regexp.Cat (regexp.Cat (regexp.Lit ",") (regexp.Lit " ")) ?b)
            ?pos (String "," (String " " ?s)) ?caps ?k)
    with (regexp.run b (S (S pos)) s caps k).
  apply (run_group_number 2 _ _ d4 _ tail); [done|done|].
  cbv beta. reflexivity.
Qed.

Lemma decLoop_digits (ds : string) : forall n,
  readback.allChars fmt.isDigit ds = true ->
  0 <= n ->
  strconv.decLoop ds n = Some (readback.decAcc ds n) /\ 0 <= readback.decAcc ds n.
Proof.
  induction ds as [|c ds IH]; intros n Hall Hn; simpl; [done|].
  simpl in Hall. apply andb_true_iff in Hall as [Hc Hds].
  unfold fmt.isDigit, in_range in Hc.
  change (byte_of "0") with 48 in Hc. change (byte_of "9") with 57 in Hc.
  rewrite Hc. apply andb_true_iff in Hc as [Hlo Hhi].
  apply Z.leb_le in Hlo, Hhi. apply IH; [done|lia].
Qed.

Lemma digit_no_sign (c : ascii) (s : string) :
  fmt.isDigit c = true ->
  match String c s with
  | String "-" s' => (true, s')
  | String "+" s' => (false, s')
  | _ => (false, String c s)
  end = (false, String c s).
Proof.
  destruct c as [[] [] [] [] [] [] [] []]; vm_compute; try discriminate; done.
Qed.

Lemma Atoi_number (ds : string) :
  plus.isNumber ds = true ->
  (strconv.Atoi ds).1 = plus.intValue ds.
Proof.
  unfold plus.isNumber. intros [Hne Hall]%andb_true_iff.
  destruct ds as [|c ds]; [discriminate|].
  pose proof Hall as Hall'. simpl in Hall'.
  apply andb_true_iff in Hall' as [Hc _].
  unfold strconv.Atoi. rewrite (digit_no_sign c ds Hc).
  destruct (decLoop_digits (String c ds) 0 Hall) as [-> Hpos]; [lia|].
  unfold plus.intValue.
  set (v := readback.decAcc (String c ds) 0) in *.
  destruct (Z.ltb_spec strconv.maxInt64 v) as [Hbig|Hok]; simpl.
  - rewrite Z.min_r; [done|lia].
  - destruct (Z.ltb_spec v strconv.minInt64) as [Hlow|_]; simpl.
    + exfalso. unfold strconv.minInt64 in Hlow. lia.
    + rewrite Z.min_l; [done|lia].
Qed.

Lemma findFrom_unfold (r : regexp.Regexp) pos s caps :
  regexp.findFrom r pos s caps =
  match regexp.run r pos s caps
          (fun pos' _ caps' => Some (<[O := take_str (pos' - pos) s]> caps'))
  with
  | Some m => Some m
  | None =>
      match s with
      | String _ s' => regexp.findFrom r (S pos) s' caps
      | EmptyString => None
      end
  end.
Proof. by destruct s. Qed.

(** The pattern is anchored at the start of the text. *)
Lemma boundsPattern_anchored (s : string) : forall pos caps,
  regexp.findFrom boxer.boundsPattern (S pos) s caps = None.
Proof.
  induction s as [|c s IH]; intros pos caps;
    cbn [regexp.findFrom]; cbn [regexp.run boxer.boundsPattern Nat.eqb]; auto.
Qed.

Lemma run_bounds_head (s : string) caps k :
  exists K, regexp.run boxer.boundsPattern O s caps k
            = plus.loop boxer.digitClass K (S (String.length s)) O s caps.
Proof. eexists. reflexivity. Qed.

Lemma FindStringSubmatch_bounds_none (b : string) :
  plus.noDigitAhead b = true ->
  regexp.FindStringSubmatch boxer.boundsPattern b = None.
Proof.
  intros Hb. unfold regexp.FindStringSubmatch.
  destruct b as [|c b]; [reflexivity|].
  cbn [regexp.findFrom]. rewrite boundsPattern_anchored.
  destruct (run_bounds_head (String c b)
              (replicate (S (regexp.numSubexp boxer.boundsPattern)) EmptyString)
              (fun pos' _ caps' =>
                 Some (<[O := take_str (pos' - 0) (String c b)]> caps')))
    as [K ->].
  rewrite loop_S, run_digit_cons. simpl in Hb.
  by destruct (fmt.isDigit c).
Qed.

Lemma DesktopSize_wellformed {World : Type}
  (exec : boxer.CommandExecutor (World := World)) (world world' : World)
  (d1 d2 d3 d4 tail : string) :
  plus.isNumber d1 = true -> plus.isNumber d2 = true ->
  plus.isNumber d3 = true -> plus.isNumber d4 = true ->
  plus.noDigitAhead tail = true ->
  exec boxer.OSAScriptPath [] (strings.TrimSpace boxer.desktopSizeScript) world
  = ((d1 +:+ ", " +:+ d2 +:+ ", " +:+ d3 +:+ ", " +:+ d4 +:+ tail, None), world') ->
  boxer.DesktopSize exec world
  = ((plus.intValue d3, plus.intValue d4, None), world').
Proof.
  intros H1 H2 H3 H4 Ht Hexec. unfold boxer.DesktopSize. rewrite Hexec.
  unfold regexp.FindStringSubmatch.
  change (replicate (S (regexp.numSubexp boxer.boundsPattern)) EmptyString)
    with [EmptyString; EmptyString; EmptyString].
  rewrite findFrom_unfold, run_bounds by done.
  change (at_ [?whole; d3; d4] 1) with d3. change (at_ [?whole; d3; d4] 2) with d4.
  pose proof (Atoi_number d3 H3) as E3. pose proof (Atoi_number d4 H4) as E4.
  destruct (strconv.Atoi d3) as [w e3]. destruct (strconv.Atoi d4) as [h e4].
  simpl in E3, E4. by rewrite E3, E4.
Qed.

(** X4. When [osascript] prints four numbers separated by a comma and a
    space, [DesktopSize] returns the third as the width and the fourth as
    the height, each held in an [int] (a number too large becomes the
    largest [int]), with no error; what follows the fourth number is
    ignored. *)
Theorem DesktopSize_parses {World : Type}
  (exec : boxer.CommandExecutor (World := World)) (world world' : World)
  (d1 d2 d3 d4 tail : string) :
  plus.isNumber d1 = true -> plus.isNumber d2 = true ->
  plus.isNumber d3 = true -> plus.isNumber d4 = true ->
  plus.noDigitAhead tail = true ->
  exec boxer.OSAScriptPath [] (strings.TrimSpace boxer.desktopSizeScript) world
  = ((d1 +:+ ", " +:+ d2 +:+ ", " +:+ d3 +:+ ", " +:+ d4 +:+ tail, None), world') ->
  boxer.DesktopSize exec world
  = ((plus.intValue d3, plus.intValue d4, None), world').
Proof. apply DesktopSize_wellformed. Qed.

Lemma DesktopSize_parses_witness :
  boxer.DesktopSize odd_config.exec 7 = ((1440, 900, None), 7).
Proof.
  apply (DesktopSize_parses odd_config.exec 7 7 "0" "0" "1440" "900" "");
    reflexivity.
Defined.

(** X5. When the executor fails, or prints something that does not begin
    with a digit, [DesktopSize] returns a zero width and height together
    with an error, and leaves the world as the executor left it. *)
Theorem DesktopSize_rejects {World : Type}
  (exec : boxer.CommandExecutor (World := World)) (world world' : World)
  (b : string) (err : option error) :
  exec boxer.OSAScriptPath [] (strings.TrimSpace boxer.desktopSizeScript) world
  = ((b, err), world') ->
  (err <> None \/ plus.noDigitAhead b = true) ->
  exists e, boxer.DesktopSize exec world = ((0, 0, Some e), world').
Proof.
  intros Hexec Hbad. unfold boxer.DesktopSize. rewrite Hexec.
  destruct err as [e|]; [by eexists|].
  destruct Hbad as [Hbad|Hbad]; [done|].
  rewrite (FindStringSubmatch_bounds_none b Hbad). by eexists.
Qed.

Lemma DesktopSize_rejects_witness :
  exists e,
    boxer.DesktopSize (fun _ _ _ (w : Z) => ("execution error", None, w)) 7
    = ((0, 0, Some e), 7).
Proof.
  apply (DesktopSize_rejects (fun _ _ _ (w : Z) => ("execution error", None, w))
           7 7 "execution error" None).
  - reflexivity.
  - right. reflexivity.
Defined.

(** ** The handlers, further *)

(** X6. For a negative position the menu bar handler sets dark mode to
    [false] whether the position is odd or even (the remainder of a
    negative odd number is -1, not 1), and the number of steps plays no
    part. *)
Theorem NewMenuBarHandler_negative {World : Type}
  (exec : boxer.CommandExecutor (World := World)) (i n : Z) (w : World)
  (log : list trace.Event) :
  i < 0 ->
  (boxer.NewMenuBarHandler (trace.exec exec) i n (w, log)).2.2
  = log ++ [trace.Exec boxer.OSAScriptPath [] (trace.darkModeText false)].
Proof.
  intros Hi. unfold boxer.NewMenuBarHandler, trace.exec.
  destruct (Z.eqb_spec i 0) as [->|_]; [lia|].
  assert ((Z.rem i 2 =? 1) = false) as ->.
  { apply Z.eqb_neq. pose proof (Z.rem_nonpos i 2). lia. }
  rewrite darkMode_script.
  by destruct (exec _ _ _ w) as [[b [e|]] w'].
Qed.

Lemma NewMenuBarHandler_negative_witness :
  (boxer.NewMenuBarHandler (trace.exec odd_config.exec) (-3) 15 (0, [])).2.2
  = [trace.Exec boxer.OSAScriptPath [] (trace.darkModeText false)].
Proof.
  apply (NewMenuBarHandler_negative odd_config.exec (-3) 15 0 []). lia.
Defined.

(** X7. The wallpaper handler returns no error exactly when every step it
    takes succeeds: the sizer, the generator if the file is reported
    absent, and the executor, which runs in the world the generator left. *)
Theorem NewWallpaperHandler_errors {World : Type}
  (os_Stat : string -> World -> option os.PathError)
  (exec : boxer.CommandExecutor (World := World))
  (sizer : boxer.DesktopSizer (World := World))
  (generator : boxer.WallpaperGenerator (World := World))
  (path : string) (i n : Z) (world : World) :
  let '((w, h, serr), world1) := sizer exec world in
  let imgpath := filepath.Join [path; boxer.wallpaperName w h i n] in
  let missing := os.IsNotExist (os_Stat imgpath world1) in
  let gen := generator imgpath w h {| boxer.num := i; boxer.den := n |} world1 in
  let world2 := if missing then gen.2 else world1 in
  (boxer.NewWallpaperHandler os_Stat exec sizer generator path i n world).1 = None
  <->
  serr = None /\ (missing = true -> gen.1 = None) /\
  (exec boxer.OSAScriptPath [] (trace.wallpaperText imgpath) world2).1.2 = None.
Proof.
  unfold boxer.NewWallpaperHandler.
  destruct (sizer exec world) as [[[w h] [e|]] world1].
  { cbv zeta. cbn [fst]. split; [intros H; discriminate H|].
    intros [H _]. discriminate H. }
  cbv zeta. rewrite setWallpaper_script.
  generalize (filepath.Join [path; boxer.wallpaperName w h i n]). intros imgpath.
  generalize (trace.wallpaperText imgpath). intros script.
  destruct (os.IsNotExist _).
  - destruct (generator imgpath w h _ world1) as [[e|] world2]; cbn [fst snd].
    { split; [done|]. intros (_ & H & _). by specialize (H eq_refl). }
    destruct (exec _ _ script world2) as [[b [e|]] world3]; cbn [fst snd].
    + split; [done|]. by intros (_ & _ & ?).
    + done.
  - destruct (exec _ _ script world1) as [[b [e|]] world3]; cbn [fst snd].
    + split; [done|]. by intros (_ & _ & ?).
    + done.
Qed.

Lemma NewWallpaperHandler_errors_witness :
  (boxer.NewWallpaperHandler odd_config.os_Stat odd_config.exec boxer.DesktopSize
     (odd_config.NewWallpaperGenerator main.RGBA_zero main.RGBA_zero)
     "/tmp/boxer/wallpaper" 3 15 0).1 = None.
Proof.
  pose proof (NewWallpaperHandler_errors odd_config.os_Stat odd_config.exec
                boxer.DesktopSize
                (odd_config.NewWallpaperGenerator main.RGBA_zero main.RGBA_zero)
                "/tmp/boxer/wallpaper" 3 15 0) as H.
  change (boxer.DesktopSize odd_config.exec 0) with ((1440, 900, @None error), 0) in H.
  apply H. split; [reflexivity|]. split; [|reflexivity].
  intros Hm. discriminate Hm.
Defined.

(** X12. A step whose wallpaper is cached costs two calls of [osascript]
    and no generation: with [DesktopSize] as the sizer, when the bounds
    are printed as four numbers and [os.Stat] does not report the file
    absent, the handler asks for the bounds and then sets the cached file
    of that width and height as the wallpaper. *)
Theorem cached_step_two_calls {World : Type}
  (os_Stat : string -> World -> option os.PathError)
  (exec0 : boxer.CommandExecutor (World := World))
  (gen0 : boxer.WallpaperGenerator (World := World))
  (path : string) (i n : Z) (world world1 : World) (log : list trace.Event)
  (d1 d2 d3 d4 tail : string) :
  plus.isNumber d1 = true -> plus.isNumber d2 = true ->
  plus.isNumber d3 = true -> plus.isNumber d4 = true ->
  plus.noDigitAhead tail = true ->
  exec0 boxer.OSAScriptPath [] (strings.TrimSpace boxer.desktopSizeScript) world
  = ((d1 +:+ ", " +:+ d2 +:+ ", " +:+ d3 +:+ ", " +:+ d4 +:+ tail, None), world1) ->
  let imgpath :=
    filepath.Join
      [path; boxer.wallpaperName (plus.intValue d3) (plus.intValue d4) i n] in
  os.IsNotExist (os_Stat imgpath world1) = false ->
  (boxer.NewWallpaperHandler (trace.stat os_Stat) (trace.exec exec0)
     boxer.DesktopSize (trace.generator gen0) path i n (world, log)).2.2
  = log ++
    [trace.Exec boxer.OSAScriptPath [] (strings.TrimSpace boxer.desktopSizeScript);
     trace.Exec boxer.OSAScriptPath [] (trace.wallpaperText imgpath)].
Proof.
  intros H1 H2 H3 H4 Ht Hexec imgpath Hstat.
  unfold boxer.NewWallpaperHandler.
  rewrite (DesktopSize_wellformed (trace.exec exec0) (world, log)
             (world1, log ++ [trace.Exec boxer.OSAScriptPath []
                                (strings.TrimSpace boxer.desktopSizeScript)])
             d1 d2 d3 d4 tail H1 H2 H3 H4 Ht);
    [|unfold trace.exec; by rewrite Hexec].
  cbv zeta. rewrite setWallpaper_script. fold imgpath.
  revert Hstat. generalize imgpath. clear imgpath. intros imgpath Hstat.
  generalize (trace.wallpaperText imgpath). intros script.
  unfold trace.stat. rewrite Hstat. unfold trace.exec.
  destruct (exec0 _ _ script world1) as [[b [e|]] world2]; cbn [fst snd];
    by rewrite <- app_assoc.
Qed.

Lemma cached_step_two_calls_witness :
  length
    (boxer.NewWallpaperHandler (trace.stat odd_config.os_Stat)
       (trace.exec odd_config.exec) boxer.DesktopSize
       (trace.generator (odd_config.NewWallpaperGenerator main.RGBA_zero
                           main.RGBA_zero))
       "/tmp/boxer/wallpaper" 3 15 (0, [])).2.2 = 2%nat.
Proof.
  rewrite (cached_step_two_calls odd_config.os_Stat odd_config.exec
             (odd_config.NewWallpaperGenerator main.RGBA_zero main.RGBA_zero)
             "/tmp/boxer/wallpaper" 3 15 0 0 [] "0" "0" "1440" "900" "");
    reflexivity.
Defined.

(** ** The path of a cached wallpaper *)

Lemma allChars_impl (p q : ascii -> bool) (s : string) :
  (forall c, p c = true -> q c = true) ->
  readback.allChars p s = true -> readback.allChars q s = true.
Proof.
  intros Hpq. induction s as [|c s IH]; simpl; [done|].
  intros [Hc Hs]%andb_true_iff. by rewrite (Hpq c Hc), IH.
Qed.

Lemma numeric_notSlash (c : ascii) :
  readback.numeric c = true -> names.notSlash c = true.
Proof.
  destruct c as [[] [] [] [] [] [] [] []]; vm_compute; done.
Qed.

Lemma wallpaperName_simple (w h i n : Z) :
  names.simpleName (boxer.wallpaperName w h i n) = true.
Proof.
  assert (Hname : boxer.wallpaperName w h i n =
            String "w" ("allpaper_" +:+ (fmt.fmtInteger true 4 w +:+ ("_" +:+
              (fmt.fmtInteger true 4 h +:+ ("_" +:+
                (fmt.fmtInteger true 2 i +:+ ("_" +:+
                  (fmt.fmtInteger true 2 n +:+ ".png")))))))))
    by reflexivity.
  rewrite Hname. unfold names.simpleName.
  assert (Hf : forall k z,
            readback.allChars names.notSlash (fmt.fmtInteger true k z) = true).
  { intros k z. eapply allChars_impl; [apply numeric_notSlash|].
    apply fmtInteger_numeric. }
  rewrite !allChars_app, !Hf. reflexivity.
Qed.

Lemma splitGo_noslash (name : string) : forall cur,
  readback.allChars names.notSlash name = true ->
  filepath.splitGo name cur = [rev_str cur name].
Proof.
  induction name as [|c name IH]; intros cur Hall; simpl; [done|].
  simpl in Hall. apply andb_true_iff in Hall as [Hc Hall].
  unfold names.notSlash in Hc. destruct (Ascii.eqb c "/"); [done|].
  by rewrite IH.
Qed.

Lemma splitGo_snoc (name : string) :
  readback.allChars names.notSlash name = true ->
  forall s cur,
    filepath.splitGo (s +:+ String "/" name) cur = filepath.splitGo s cur ++ [name].
Proof.
  intros Hall. induction s as [|c s IH]; intros cur.
  - rewrite str_app_nil_l. simpl. by rewrite splitGo_noslash.
  - rewrite str_app_cons. simpl. destruct (Ascii.eqb c "/"); by rewrite IH.
Qed.

Lemma simpleName_eqb (name : string) :
  names.simpleName name = true ->
  String.eqb name "" = false /\ String.eqb name "." = false /\
  String.eqb name ".." = false /\
  readback.allChars names.notSlash name = true /\
  exists c r, name = String c r.
Proof.
  destruct name as [|c r]; [done|]. simpl.
  intros [[Hs Hd]%andb_true_iff Hr]%andb_true_iff.
  apply negb_true_iff in Hd.
  split; [done|]. split; [by rewrite Hd|]. split; [by rewrite Hd|].
  split; [by rewrite Hs, Hr|]. eauto.
Qed.

Lemma cleanGo_snoc (rooted : bool) (name : string) :
  names.simpleName name = true ->
  forall elems stack,
    filepath.cleanGo rooted (elems ++ [name]) stack
    = name :: filepath.cleanGo rooted elems stack.
Proof.
  intros (H0 & H1 & H2 & _)%simpleName_eqb.
  induction elems as [|e elems IH]; intros stack; simpl.
  - by rewrite H0, H1, H2.
  - destruct (String.eqb e "" || String.eqb e "."); [apply IH|].
    destruct (String.eqb e "..").
    + destruct stack as [|top stack]; [destruct rooted; apply IH|].
      destruct (String.eqb top ".."); apply IH.
    + apply IH.
Qed.

Lemma joinSlash_snoc (xs : list string) :
  exists p, forall name, filepath.joinSlash (xs ++ [name]) = p +:+ name.
Proof.
  induction xs as [|x xs [p IH]].
  - by exists EmptyString.
  - exists (x +:+ "/" +:+ p). intros name.
    change ((x :: xs) ++ [name]) with (x :: (xs ++ [name])).
    specialize (IH name). destruct (xs ++ [name]) as [|y ys] eqn:E.
    { by destruct xs. }
    change (filepath.joinSlash (x :: y :: ys))
      with (x +:+ "/" +:+ filepath.joinSlash (y :: ys)).
    rewrite IH. by rewrite !str_app_assoc.
Qed.

(** The path joined from a directory and a simple name is a prefix, which
    the directory alone gives, followed by the name. *)
Lemma Join_simple (path : string) :
  exists p, forall name,
    names.simpleName name = true -> filepath.Join [path; name] = p +:+ name.
Proof.
  destruct path as [|a path].
  - exists EmptyString. intros name Hname.
    destruct (simpleName_eqb name Hname) as (H0 & _ & _ & Hall & c & r & ->).
    cbn [filepath.Join String.eqb]. cbn [String.eqb] in H0.
    cbn [filepath.joinSlash]. unfold filepath.Clean, filepath.split.
    rewrite splitGo_noslash by done.
    assert (Ascii.eqb c "/" = false) as ->.
    { simpl in Hname. unfold names.notSlash in Hname.
      by destruct (Ascii.eqb c "/"). }
    change (rev_str "" (String c r)) with (String c r).
    change [String c r] with ([] ++ [String c r]).
    rewrite cleanGo_snoc by done. reflexivity.
  - destruct (joinSlash_snoc
                (rev (filepath.cleanGo (Ascii.eqb a "/")
                        (filepath.split (String a path)) []))) as [q Hq].
    exists (if Ascii.eqb a "/" then "/" +:+ q else q). intros name Hname.
    destruct (simpleName_eqb name Hname) as (_ & _ & _ & Hall & c & r & Hcr).
    cbn [filepath.Join String.eqb].
    change (filepath.joinSlash [String a path; name])
      with (String a (path +:+ String "/" name)).
    unfold filepath.Clean, filepath.split.
    change (String a (path +:+ String "/" name))
      with (String a path +:+ String "/" name).
    rewrite splitGo_snoc by done. rewrite cleanGo_snoc by done.
    change (rev (name :: ?st)) with (rev st ++ [name]).
    fold (filepath.split (String a path)). rewrite Hq.
    destruct (Ascii.eqb a "/"); [by rewrite str_app_assoc|].
    subst name. by destruct q.
Qed.

(** X8. Under one directory, the path of a cached wallpaper determines the
    width, the height, the position and the number of steps: two different
    desktops or steps never share a cached file. *)
Theorem wallpaperPath_inj (path : string) (w h i n w' h' i' n' : Z) :
  filepath.Join [path; boxer.wallpaperName w h i n]
  = filepath.Join [path; boxer.wallpaperName w' h' i' n'] ->
  w = w' /\ h = h' /\ i = i' /\ n = n'.
Proof.
  destruct (Join_simple path) as [p Hp].
  rewrite !Hp by apply wallpaperName_simple.
  intros H. apply (inj (String.app p)) in H. by apply wallpaperName_inj.
Qed.

Lemma wallpaperPath_inj_witness :
  1440 = 1440 /\ 900 = 900 /\ 3 = 3 /\ 15 = 15.
Proof.
  apply (wallpaperPath_inj "/tmp/boxer/../boxer//wallpaper" 1440 900 3 15
           1440 900 3 15).
  reflexivity.
Defined.

(** ** The program *)

Section ProgramFacts.

Context {World : Type}.
Variable user_Current : World -> (string * option error) * World.
Variable toml_DecodeFile :
  string -> main.Config -> World -> (main.Config * option error) * World.
Variable ioutil_TempDir : string -> string -> World -> (string * option error) * World.
Variable log_Printf : string -> list Value -> World -> World.
Variable time_Sleep : Z -> World -> World.
Variable time_Now : World -> Z.
Variable os_Stat : string -> World -> option os.PathError.
Variable NewWallpaperGenerator :
  main.RGBA -> main.RGBA -> boxer.WallpaperGenerator (World := World).
Variable panics : boxer.Ticker (World := World) -> World -> bool.

Let Run :=
  program.Run user_Current toml_DecodeFile ioutil_TempDir log_Printf time_Sleep
    time_Now os_Stat NewWallpaperGenerator panics.

(** X9. The arguments never choose the configuration: an argument list
    whose first argument is a flag makes [Run] return the error of the flag
    set with the world untouched, and any other argument list makes it
    behave as with no argument at all. In particular [-config path],
    [-config=path] and [--config path] are refused as not defined. *)
Theorem Run_arguments (fuel : nat) (m : program.Main) (args : list string)
  (world : World) :
  match flag.Parse args with
  | Some err => Run fuel m args world = (program.Returned (Some err), world)
  | None => Run fuel m args world = Run fuel m [] world
  end /\
  (forall path rest,
     let err := Errorf "flag provided but not defined: -%s" [Val (VStr "config")] in
     flag.Parse ("-config" :: path :: rest) = Some err /\
     flag.Parse (("-config=" +:+ path) :: rest) = Some err /\
     flag.Parse ("--config" :: path :: rest) = Some err).
Proof.
  split.
  - unfold Run, program.Run. by destruct (flag.Parse args).
  - intros path rest. repeat split; reflexivity.
Qed.

End ProgramFacts.

(** X11. No other configuration file than [boxer.conf] in the home
    directory is ever read: two decoders that agree on that one path make
    [Run] behave alike, whatever they do on other paths. *)
Theorem Run_reads_default_config {World : Type}
  (user_Current : World -> (string * option error) * World)
  (decode1 decode2 :
     string -> main.Config -> World -> (main.Config * option error) * World)
  (ioutil_TempDir : string -> string -> World -> (string * option error) * World)
  (log_Printf : string -> list Value -> World -> World)
  (time_Sleep : Z -> World -> World)
  (time_Now : World -> Z)
  (os_Stat : string -> World -> option os.PathError)
  (NewWallpaperGenerator : main.RGBA -> main.RGBA -> boxer.WallpaperGenerator)
  (panics : boxer.Ticker -> World -> bool)
  (fuel : nat) (m : program.Main) (args : list string) (world : World) :
  (forall c w,
     decode1 (filepath.Join [(user_Current world).1.1; "boxer.conf"]) c w
     = decode2 (filepath.Join [(user_Current world).1.1; "boxer.conf"]) c w) ->
  program.Run user_Current decode1 ioutil_TempDir log_Printf time_Sleep
    time_Now os_Stat NewWallpaperGenerator panics fuel m args world
  = program.Run user_Current decode2 ioutil_TempDir log_Printf time_Sleep
      time_Now os_Stat NewWallpaperGenerator panics fuel m args world.
Proof.
  intros H. unfold program.Run, program.ReadConfig, program.DefaultConfigPath.
  destruct (flag.Parse args) as [e|]; [done|].
  change (String.eqb "" "") with true. cbv iota.
  destruct (user_Current world) as [[home [e|]] w1]; [done|].
  simpl in H. by rewrite H.
Qed.

Lemma Run_reads_default_config_witness :
  program_demo.Run program_demo.decodeHome 3 [] 0
  = program_demo.Run program_demo.decodeEnabled 3 [] 0.
Proof.
  apply (Run_reads_default_config program_demo.user_Current
           program_demo.decodeHome program_demo.decodeEnabled).
  intros c w. reflexivity.
Defined.

(** The program in the small world: three rounds with the wallpaper
    enabled, and a flag on the command line. *)
Example Run_demo :
  program_demo.Run program_demo.decodeHome 3 [] 0 = (program.Running, 3 * time.Second) /\
  (program_demo.Run program_demo.decodeHome 3 ["-config"; "boxer.conf"] 0).1
  = program.Returned
      (Some (Errorf "flag provided but not defined: -%s" [Val (VStr "config")])).
Proof. split; by vm_compute. Qed.

Lemma tickLoop_interval {World : Type} (time_Sleep : Z -> World -> World)
  (panics : boxer.Ticker -> World -> bool)
  (fuel : nat) : forall (m1 m2 : program.Main) ticker world,
  program.TickInterval m1 = program.TickInterval m2 ->
  program.tickLoop time_Sleep panics fuel m1 ticker world
  = program.tickLoop time_Sleep panics fuel m2 ticker world.
Proof.
  induction fuel as [|fuel IH]; intros m1 m2 ticker world Hi; simpl; [done|].
  destruct (panics ticker world); [done|].
  destruct (boxer.Tick ticker world) as [[os t'] w']. rewrite Hi. by apply IH.
Qed.

(** X13. When the configuration read leaves the wallpaper disabled, as the
    default configuration does, the program never uses its executor: [Run]
    behaves the same with any two executors, so no [osascript] call is
    made at all. *)
Theorem Run_disabled_never_executes {World : Type}
  (user_Current : World -> (string * option error) * World)
  (toml_DecodeFile :
     string -> main.Config -> World -> (main.Config * option error) * World)
  (ioutil_TempDir : string -> string -> World -> (string * option error) * World)
  (log_Printf : string -> list Value -> World -> World)
  (time_Sleep : Z -> World -> World)
  (time_Now : World -> Z)
  (os_Stat : string -> World -> option os.PathError)
  (NewWallpaperGenerator : main.RGBA -> main.RGBA -> boxer.WallpaperGenerator)
  (panics : boxer.Ticker -> World -> bool)
  (fuel : nat) (interval : Z) (exec1 exec2 : boxer.CommandExecutor)
  (args : list string) (world : World) :
  (forall path w,
     main.Enabled (main.Wallpaper (toml_DecodeFile path main.NewConfig w).1.1)
     = false) ->
  program.Run user_Current toml_DecodeFile ioutil_TempDir log_Printf time_Sleep
    time_Now os_Stat NewWallpaperGenerator panics fuel
    {| program.TickInterval := interval; program.Executor := exec1 |} args world
  = program.Run user_Current toml_DecodeFile ioutil_TempDir log_Printf time_Sleep
      time_Now os_Stat NewWallpaperGenerator panics fuel
      {| program.TickInterval := interval; program.Executor := exec2 |} args world.
Proof.
  intros Hoff. unfold program.Run, program.ReadConfig, program.DefaultConfigPath.
  destruct (flag.Parse args) as [e|]; [done|].
  change (String.eqb "" "") with true. cbv iota.
  destruct (user_Current world) as [[home [e|]] w1]; [done|].
  specialize (Hoff (filepath.Join [home; "boxer.conf"]) w1).
  destruct (toml_DecodeFile _ _ w1) as [[config [e|]] w2]; [done|].
  simpl in Hoff. unfold main.NewTicker.
  destruct (String.eqb (main.WorkDir config) "").
  - destruct (ioutil_TempDir _ _ w2) as [[str [e|]] w3]; [done|].
    cbn [program.setWorkDir main.Wallpaper program.Executor]. rewrite Hoff.
    by apply tickLoop_interval.
  - cbn [program.Executor]. rewrite Hoff. by apply tickLoop_interval.
Qed.

Lemma Run_disabled_never_executes_witness :
  empty_config.Run odd_config.exec 3 0 = empty_config.Run empty_config.failing 3 0.
Proof.
  apply (Run_disabled_never_executes program_demo.user_Current empty_config.decode).
  intros path w. reflexivity.
Defined.
